(** * moto.xray: segment ingestion, per-trace aggregation, trace summaries

    A shallow embedding of [moto/xray/models.py] and of the handlers
    [telemetry_records], [trace_segments] and [trace_summaries] of
    [moto/xray/responses.py].

    Conventions of the embedding.
    - A decoded JSON document is a value of [json]; numbers are the
      rationals they denote (a Python [int], or a [float] as the rational
      it is exactly); the non-finite floats have no counterpart.
    - A [datetime] is its number of microseconds since
      [datetime(1970, 1, 1)]; the local time zone is UTC.  A [timedelta]
      is a number of microseconds, and [total_seconds()] is the binary64
      number nearest to its quotient by 10^6.
    - A Python exception keeps the effects made before it: a computation
      is a function from the state to an outcome and the state reached.
    - The cached attributes [_start_date] and [_end_date] of a segment
      only memoise [fromtimestamp]; the properties are modelled as the
      functions they cache.
    - [json.loads] belongs to the Python library: the backend takes the
      decoder as an argument. *)

From Stdlib Require Import ZArith QArith Qreduction String Ascii List Bool Lia.
From Stdlib Require Import Sorting.Sorted Sorting.Permutation.
Import ListNotations.

Local Open Scope string_scope.
Local Open Scope list_scope.
Local Open Scope Z_scope.

(** ** Values *)

#[local] Unset Elimination Schemes.

Inductive json : Type :=
| JNull
| JBool (b : bool)
| JNum (q : Q)
| JStr (s : string)
| JArr (l : list json)
| JObj (d : list (string * json)).

#[local] Set Elimination Schemes.

Definition dict : Type := list (string * json).

(** [k in d] *)
Definition dict_has (k : string) (d : dict) : bool :=
  existsb (fun kv => String.eqb (fst kv) k) d.

(** [d.get(k)] *)
Fixpoint dict_get (k : string) (d : dict) : option json :=
  match d with
  | [] => None
  | (k', v) :: d' => if String.eqb k' k then Some v else dict_get k d'
  end.

(** [d.get(k, default)] *)
Definition dict_get_default (k : string) (default : json) (d : dict) : json :=
  match dict_get k d with Some v => v | None => default end.

(** [d[k] = v]: the value of an existing key is replaced in place, a new
    key goes to the end. *)
Fixpoint dict_set (k : string) (v : json) (d : dict) : dict :=
  match d with
  | [] => [(k, v)]
  | (k', v') :: d' =>
      if String.eqb k' k then (k', v) :: d' else (k', v') :: dict_set k v d'
  end.

(** [v == s] for a string [s]: only a string equals a string. *)
Definition eq_str (v : json) (s : string) : bool :=
  match v with
  | JStr s' => String.eqb s' s
  | _ => false
  end.

(** [sub in s] on strings. *)
Definition contains (sub s : string) : bool :=
  match String.index 0 sub s with Some _ => true | None => false end.

(** [v is not None] *)
Definition is_not_none (v : json) : bool :=
  match v with JNull => false | _ => true end.

(** ** Exceptions and outcomes *)

(** Modelled from the spec: [moto/xray/exceptions.py] is not among the
    sources.  [BadSegmentException] carries the optional segment id
    ([JNull] for [None]), a code and a message, the three parts of a
    rejection record; [AWSError] carries a message, a code and a status.
    Neither is a [ValueError].  [OutOfRange] stands for the error raised
    by [fromtimestamp] on a number that is no valid date
    ([OverflowError], [OSError] or [ValueError] with the magnitude). *)
Inductive exn : Type :=
| TypeError
| ValueError
| IndexError
| OutOfRange
| BadSegmentException (seg_id : json) (code : string) (message : text)
| AWSError (message : string) (code : string) (status : Z)
with text : Type :=
| Lit (s : string)
| StrOf (err : exn).

Inductive result (A : Type) : Type :=
| Ok (a : A)
| Raise (e : exn).
Arguments Ok {A} a.
Arguments Raise {A} e.

(** Computations over a state [S]: the state reached is returned with the
    outcome, also when the outcome is an exception. *)
Definition M (S A : Type) : Type := S -> result A * S.

Definition ret {S A : Type} (a : A) : M S A := fun s => (Ok a, s).

Definition bind {S A B : Type} (m : M S A) (k : A -> M S B) : M S B :=
  fun s =>
    match m s with
    | (Ok a, s') => k a s'
    | (Raise e, s') => (Raise e, s')
    end.

Definition lift {S A : Type} (r : result A) : M S A := fun s => (r, s).

Notation "x <- m ;; k" := (bind m (fun x => k))
  (at level 61, m at next level, right associativity).
Notation "m ;;; k" := (bind m (fun _ => k))
  (at level 61, right associativity).

(** ** Dates *)

(** The integer nearest to [n / d], ties to even; [d] is positive. *)
Definition rne_div (n d : Z) : Z :=
  let f := n / d in
  let r := n mod d in
  if 2 * r <? d then f
  else if d <? 2 * r then f + 1
  else if Z.even f then f else f + 1.

(** A finite [float] that is not negative: the pair [(m, e)] is the
    binary64 number [m * 2^e]. *)
Definition float : Type := (Z * Z)%type.

(** [a / (b * 2^e)] as a fraction of integers. *)
Definition scaled_num (a e : Z) : Z := if 0 <=? e then a else a * 2 ^ (- e).
Definition scaled_den (b e : Z) : Z := if 0 <=? e then b * 2 ^ e else b.

(** The exponent of the binary64 number nearest to [a / b], for positive
    [a] and [b]: the one that leaves 53 bits before the point, and the
    least exponent of the format below it. *)
Definition float_exponent (a b : Z) : Z :=
  let e0 := Z.log2 a - Z.log2 b - 52 in
  let e := if scaled_num a e0 / scaled_den b e0 <? 2 ^ 52 then e0 - 1 else e0 in
  Z.max e (-1074).

(** The [float] nearest to [a / b], ties to even, for [a] not negative
    and [b] positive: what the true division of two [int] and the product
    of two [float] give, both correctly rounded.  (A quotient beyond the
    range of binary64 does not arise from a date.) *)
Definition float_of_ratio (a b : Z) : float :=
  if a =? 0 then (0, 0)
  else
    let e := float_exponent a b in
    (rne_div (scaled_num a e) (scaled_den b e), e).

(** [int(x)] on a [float] that is not negative. *)
Definition int_of_float (x : float) : Z :=
  let (m, e) := x in
  if 0 <=? e then m * 2 ^ e else m / 2 ^ (- e).

(** [round(x)] on a [float] that is not negative: ties to even. *)
Definition round_of_float (x : float) : Z :=
  let (m, e) := x in
  if 0 <=? e then m * 2 ^ e else rne_div m (2 ^ (- e)).

(** [datetime.min] and [datetime.max], in microseconds since the epoch. *)
Definition datetime_min : Z := -62135596800 * 1000000.
Definition datetime_max : Z := 253402300799 * 1000000 + 999999.

(** The day [fromtimestamp] looks back, to tell a repeated local time. *)
Definition max_fold_seconds : Z := 24 * 3600.

(** [datetime.datetime.fromtimestamp(v)]: [bool] is a subclass of [int];
    anything that is no number is a [TypeError].  The number is split by
    [modf]; the fraction times [1e6], a [float] product, is rounded to
    the microseconds, ties to even; both the second reached and the one
    [max_fold_seconds] before it have to lie in the years 1 to 9999. *)
Definition fromtimestamp (v : json) : result Z :=
  let of_num (q : Q) :=
    let n := Qnum q in
    let d := Z.pos (Qden q) in
    let frac := Z.rem n d in
    let us :=
      Z.sgn frac * round_of_float (float_of_ratio (Z.abs frac * 1000000) d) in
    let stamp := Z.quot n d * 1000000 + us in
    if (datetime_min + max_fold_seconds * 1000000 <=? stamp)
       && (stamp <=? datetime_max)
    then Ok stamp
    else Raise OutOfRange in
  match v with
  | JNum q => of_num q
  | JBool b => of_num (if b then 1%Q else 0%Q)
  | _ => Raise TypeError
  end.

(** [int(td.total_seconds())] of a [timedelta] of [us] microseconds:
    [total_seconds()] is the [float] nearest to [us / 10^6], and [int]
    truncates it toward zero. *)
Definition total_seconds_int (us : Z) : Z :=
  Z.sgn us * int_of_float (float_of_ratio (Z.abs us) 1000000).

(** ** TraceSegment *)

Module TraceSegment.

Record t : Type := mk {
  name : json;
  id : json;
  trace_id : json;
  start_time : json;
  end_time : json;
  in_progress : json;
  service : json;
  user : json;
  origin : json;
  parent_id : json;
  http : json;
  aws : json;
  metadata : json;
  annotations : json;
  subsegments : json;
  misc : dict
}.

(** The named parameters of [__init__]; every other key of the document
    lands in [kwargs]. *)
Definition init_params : list string :=
  ["name"; "segment_id"; "trace_id"; "start_time"; "end_time";
   "in_progress"; "service"; "user"; "origin"; "parent_id"; "http";
   "aws"; "metadata"; "annotations"; "subsegments"].

Definition is_init_param (k : string) : bool :=
  existsb (String.eqb k) init_params.

(** Modelled from the spec: [BaseModel], of [moto.core], is not among the
    sources.  The extension fields of a segment are an open mapping of
    the unknown keys of the document: the constructor that the class
    inherits is taken to accept every keyword. *)
Definition base_model_accepts (data : dict) : bool := true.

(** The call of [cls] with the document as keyword arguments: a key
    [self] collides with the receiver, and a keyword that the inherited
    constructor refuses is a [TypeError] as well; the four parameters
    without a default are required. *)
Definition init (data : dict) : result t :=
  if dict_has "self" data || negb (base_model_accepts data) then Raise TypeError
  else
    match dict_get "name" data, dict_get "segment_id" data,
          dict_get "trace_id" data, dict_get "start_time" data with
    | Some n, Some i, Some tr, Some st =>
        Ok {| name := n;
              id := i;
              trace_id := tr;
              start_time := st;
              end_time := dict_get_default "end_time" JNull data;
              in_progress := dict_get_default "in_progress" (JBool false) data;
              service := dict_get_default "service" JNull data;
              user := dict_get_default "user" JNull data;
              origin := dict_get_default "origin" JNull data;
              parent_id := dict_get_default "parent_id" JNull data;
              http := dict_get_default "http" JNull data;
              aws := dict_get_default "aws" JNull data;
              metadata := dict_get_default "metadata" JNull data;
              annotations := dict_get_default "annotations" JNull data;
              subsegments := dict_get_default "subsegments" JNull data;
              misc := filter (fun kv => negb (is_init_param (fst kv))) data |}
    | _, _, _, _ => Raise TypeError
    end.

(** The [start_date] and [end_date] properties. *)
Definition start_date (self : t) : result Z := fromtimestamp (start_time self).
Definition end_date (self : t) : result Z := fromtimestamp (end_time self).

(** [__lt__]: [self.start_date < other.start_date], the left operand
    first. *)
Definition lt (self other : t) : result bool :=
  match start_date self with
  | Raise e => Raise e
  | Ok a =>
      match start_date other with
      | Raise e => Raise e
      | Ok b => Ok (a <? b)
      end
  end.

Definition missing_segment_id : text := Lit "Missing segment ID".

(** The loop [for arg in ('name', 'trace_id', 'start_time')]. *)
Fixpoint check_args (args : list string) (seg_id : json) (data : dict)
  : result unit :=
  match args with
  | [] => Ok tt
  | arg :: args' =>
      if negb (dict_has arg data)
      then Raise (BadSegmentException seg_id "MissingParam" missing_segment_id)
      else check_args args' seg_id data
  end.

(** [from_dict] on a decoded document that is a dictionary. *)
Definition from_dict_obj (data : dict) : result t :=
  if negb (dict_has "id" data)
  then Raise (BadSegmentException JNull "MissingParam" missing_segment_id)
  else
    let seg_id := dict_get_default "id" JNull data in
    let data := dict_set "segment_id" seg_id data in
    match check_args ["name"; "trace_id"; "start_time"] seg_id data with
    | Raise e => Raise e
    | Ok _ =>
        if negb (dict_has "end_time" data) && negb (dict_has "in_progress" data)
        then Raise (BadSegmentException seg_id "MissingParam"
                      (Lit "Missing end_time or in_progress"))
        else if negb (dict_has "end_time" data)
                && eq_str (dict_get_default "in_progress" JNull data) "false"
        then Raise (BadSegmentException seg_id "MissingParam"
                      (Lit "Missing end_time"))
        else init data
    end.

(** [from_dict] on any decoded document.  On a string, ['id' not in data]
    is a substring test and [data['id']] a [TypeError]; on a list it is a
    membership test and [data['id']] a [TypeError]; [None], a boolean or
    a number is not iterable. *)
Definition from_dict (data : json) : result t :=
  match data with
  | JObj d => from_dict_obj d
  | JStr s =>
      if negb (contains "id" s)
      then Raise (BadSegmentException JNull "MissingParam" missing_segment_id)
      else Raise TypeError
  | JArr l =>
      if negb (existsb (fun v => eq_str v "id") l)
      then Raise (BadSegmentException JNull "MissingParam" missing_segment_id)
      else Raise TypeError
  | JNull | JBool _ | JNum _ => Raise TypeError
  end.

End TraceSegment.

(** ** bisect.insort_left *)

(** The loop of [bisect_left]:
    [while lo < hi: mid = (lo+hi)//2; if a[mid] < x: lo = mid+1 else: hi = mid].
    The first argument bounds the number of iterations; [hi - lo] of them
    are enough (lemmas [bisect_left_loop_unfold] and
    [bisect_left_loop_bound]). *)
Fixpoint bisect_left_loop (n : nat) (a : list TraceSegment.t)
  (x : TraceSegment.t) (lo hi : nat) : result nat :=
  match n with
  | O => Ok lo
  | S n' =>
      if (lo <? hi)%nat then
        let mid := ((lo + hi) / 2)%nat in
        match nth_error a mid with
        | None => Raise IndexError
        | Some am =>
            match TraceSegment.lt am x with
            | Raise e => Raise e
            | Ok true => bisect_left_loop n' a x (S mid) hi
            | Ok false => bisect_left_loop n' a x lo mid
            end
        end
      else Ok lo
  end.

Definition bisect_left (a : list TraceSegment.t) (x : TraceSegment.t)
  : result nat :=
  bisect_left_loop (length a) a x 0 (length a).

(** [a.insert(i, x)] *)
Definition list_insert (i : nat) (x : TraceSegment.t) (a : list TraceSegment.t)
  : list TraceSegment.t :=
  firstn i a ++ x :: skipn i a.

Definition insort_left (a : list TraceSegment.t) (x : TraceSegment.t)
  : result (list TraceSegment.t) :=
  match bisect_left a x with
  | Raise e => Raise e
  | Ok lo => Ok (list_insert lo x a)
  end.

(** ** SegmentCollection *)

Module SegmentCollection.

(** The value of [_new_trace_item]: a dictionary with the four keys
    ['start_date'], ['end_date'], ['finished'] and ['segments']. *)
Record trace : Type := mk_trace {
  start_date : Z;
  end_date : Z;
  finished : bool;
  segments : list TraceSegment.t
}.

Definition _new_trace_item : trace :=
  {| start_date := 0; end_date := 0; finished := false; segments := [] |}.

Definition set_start_date (v : Z) (tr : trace) : trace :=
  {| start_date := v; end_date := end_date tr;
     finished := finished tr; segments := segments tr |}.
Definition set_end_date (v : Z) (tr : trace) : trace :=
  {| start_date := start_date tr; end_date := v;
     finished := finished tr; segments := segments tr |}.
Definition set_finished (v : bool) (tr : trace) : trace :=
  {| start_date := start_date tr; end_date := end_date tr;
     finished := v; segments := segments tr |}.
Definition set_segments (v : list TraceSegment.t) (tr : trace) : trace :=
  {| start_date := start_date tr; end_date := end_date tr;
     finished := finished tr; segments := v |}.

(** Keys of the dictionary [_segments].  Python identifies [True] with
    [1], [False] with [0] and equal numbers with each other, so a number
    is kept in lowest terms; a list or a dictionary is not hashable. *)
Inductive key : Type :=
| KNone
| KNum (q : Q)
| KStr (s : string).

Definition hash_key (v : json) : result key :=
  match v with
  | JNull => Ok KNone
  | JBool b => Ok (KNum (if b then 1%Q else 0%Q))
  | JNum q => Ok (KNum (Qred q))
  | JStr s => Ok (KStr s)
  | JArr _ | JObj _ => Raise TypeError
  end.

Definition key_eqb (a b : key) : bool :=
  match a, b with
  | KNone, KNone => true
  | KNum p, KNum q => Z.eqb (Qnum p) (Qnum q) && Pos.eqb (Qden p) (Qden q)
  | KStr s, KStr s' => String.eqb s s'
  | _, _ => false
  end.

(** [_segments]: the traces in insertion order, the order in which
    [items()] yields them. *)
Definition t : Type := list (key * trace).

Definition empty : t := [].

Fixpoint lookup (k : key) (st : t) : option trace :=
  match st with
  | [] => None
  | (k', tr) :: st' => if key_eqb k' k then Some tr else lookup k st'
  end.

(** In-place change of the trace stored under [k]. *)
Fixpoint alter (f : trace -> trace) (k : key) (st : t) : t :=
  match st with
  | [] => []
  | (k', tr) :: st' =>
      if key_eqb k' k then (k', f tr) :: st' else (k', tr) :: alter f k st'
  end.

(** [self._segments[tid]] on the [defaultdict]: a missing key is created
    with a new trace item. *)
Definition getitem (tid : json) : M t trace :=
  fun st =>
    match hash_key tid with
    | Raise e => (Raise e, st)
    | Ok k =>
        match lookup k st with
        | Some tr => (Ok tr, st)
        | None => (Ok _new_trace_item, st ++ [(k, _new_trace_item)])
        end
    end.

(** [self._segments[tid][field] = v], and the in-place change of the
    list [self._segments[tid]['segments']]. *)
Definition update (tid : json) (f : trace -> trace) : M t unit :=
  _ <- getitem tid ;;
  fun st =>
    match hash_key tid with
    | Raise e => (Raise e, st)
    | Ok k => (Ok tt, alter f k st)
    end.

(** [l[0]] and [l[-1]] *)
Definition first_item (l : list TraceSegment.t) : result TraceSegment.t :=
  match l with
  | [] => Raise IndexError
  | x :: _ => Ok x
  end.

Definition last_item (l : list TraceSegment.t) : result TraceSegment.t :=
  match rev l with
  | [] => Raise IndexError
  | x :: _ => Ok x
  end.

Definition put_segment (segment : TraceSegment.t) : M t unit :=
  let tid := TraceSegment.trace_id segment in
  tr <- getitem tid ;;
  segs <- lift (insort_left (segments tr) segment) ;;
  update tid (set_segments segs) ;;;
  tr <- getitem tid ;;
  tail <- lift (last_item (segments tr)) ;;
  if is_not_none (TraceSegment.end_time tail) then
    update tid (set_finished true) ;;;
    tr <- getitem tid ;;
    head <- lift (first_item (segments tr)) ;;
    start_time <- lift (TraceSegment.start_date head) ;;
    tr <- getitem tid ;;
    tail <- lift (last_item (segments tr)) ;;
    end_time <- lift (TraceSegment.end_date tail) ;;
    update tid (set_start_date start_time) ;;;
    update tid (set_end_date end_time)
  else ret tt.

Record summary_part : Type := mk_summary_part {
  Annotations : dict;
  Duration : Z;
  HasError : bool;
  HasFault : bool;
  HasThrottle : bool;
  Http : dict;
  Id : key;
  IsParital : bool;
  ResponseTime : Z;
  ServiceIds : list json;
  Users : dict
}.

Record summary_result : Type := mk_summary_result {
  ApproximateTime : Z;
  TracesProcessedCount : nat;
  TraceSummaries : list summary_part
}.

(** [any(k in seg.misc for seg in segs)] *)
Definition any_misc (k : string) (segs : list TraceSegment.t) : bool :=
  existsb (fun seg => dict_has k (TraceSegment.misc seg)) segs.

(** The condition of the [if] in the loop of [summary]. *)
Definition in_window (start_time end_time : Z) (tr : trace) : bool :=
  finished tr && (start_time <? start_date tr) && (end_date tr <? end_time).

Definition make_summary_part (tid : key) (tr : trace) : summary_part :=
  let duration := total_seconds_int (end_date tr - start_date tr) in
  let has_error := any_misc "error" (segments tr) in
  let has_fault := any_misc "fault" (segments tr) in
  let has_throttle := any_misc "throttle" (segments tr) in
  {| Annotations := [];
     Duration := duration;
     HasError := has_error;
     HasFault := has_fault;
     HasThrottle := has_throttle;
     Http := [];
     Id := tid;
     IsParital := false;
     ResponseTime := 1;
     ServiceIds := [];
     Users := [] |}.

(** The loop [for tid, trace in self._segments.items()]. *)
Fixpoint summary_loop (items : list (key * trace)) (start_time end_time : Z)
  (summaries : list summary_part) : list summary_part :=
  match items with
  | [] => summaries
  | (tid, tr) :: rest =>
      if in_window start_time end_time tr
      then summary_loop rest start_time end_time
             (summaries ++ [make_summary_part tid tr])
      else summary_loop rest start_time end_time summaries
  end.

(** [self._segments.items()]: a read of the dictionary. *)
Definition items : M t (list (key * trace)) := fun st => (Ok st, st).

(** [summary]; [now] is the value of [datetime.datetime.now()]. *)
Definition summary (start_time end_time : Z) (filter_expression : json)
  (sampling : bool) (now : Z) : M t summary_result :=
  if is_not_none filter_expression
  then lift (Raise (AWSError "Not implemented yet - moto" "InternalFailure" 500))
  else
    its <- items ;;
    let summaries := summary_loop its start_time end_time [] in
    ret {| ApproximateTime := total_seconds_int (now - 0);
           TracesProcessedCount := length summaries;
           TraceSummaries := summaries |}.

End SegmentCollection.

(** ** XRayBackend *)

Module XRayBackend.

Definition bad_json : exn :=
  BadSegmentException JNull "JSONFormatError" (Lit "Bad JSON data").

Section Backend.

(** [json.loads]: [None] when it raises [ValueError]. *)
Variable json_loads : string -> option json.

(** The state of the backend is its [_segment_collection]; the list
    [_telemetry_records] plays no part here. *)
Definition process_segment (doc : string) : M SegmentCollection.t unit :=
  fun st =>
    match json_loads doc with
    | None => (Raise bad_json, st)
    | Some data =>
        match TraceSegment.from_dict data with
        | Raise ValueError => (Raise bad_json, st)
        | Raise e => (Raise e, st)
        | Ok segment =>
            match SegmentCollection.put_segment segment st with
            | (Ok _, st') => (Ok tt, st')
            | (Raise err, st') =>
                (Raise (BadSegmentException (TraceSegment.id segment)
                          "InternalFailure" (StrOf err)), st')
            end
        end
    end.

End Backend.

Definition get_trace_summary (start_time end_time : Z)
  (filter_expression : json) (summaries : bool) (now : Z)
  : M SegmentCollection.t SegmentCollection.summary_result :=
  SegmentCollection.summary start_time end_time filter_expression summaries now.

End XRayBackend.

(** ** XRayResponse *)

Module XRayResponse.

(** Modelled from the spec: [to_dict] of [BadSegmentException] lives in
    [moto/xray/exceptions.py], which is not among the sources.  A
    rejection record has the segment id when there is one, the code and
    the message. *)
Record rejection : Type := mk_rejection {
  segment_id : json;
  code : string;
  message : text
}.

(** What the handler returns: the body listing the unprocessed segments
    (status 200), or an error body with its status. *)
Inductive response : Type :=
| UnprocessedTraceSegments (bad_segments : list rejection)
| ErrorResponse (type : string) (msg : text) (status : Z).

Section Handler.

Variable json_loads : string -> option json.

(** The loop [for doc in docs] of [trace_segments]. *)
Fixpoint trace_segments_loop (docs : list string)
  (bad_segments : list rejection) : M SegmentCollection.t response :=
  match docs with
  | [] => ret (UnprocessedTraceSegments bad_segments)
  | doc :: docs' =>
      fun st =>
        match XRayBackend.process_segment json_loads doc st with
        | (Ok _, st') => trace_segments_loop docs' bad_segments st'
        | (Raise (BadSegmentException i c m), st') =>
            trace_segments_loop docs'
              (bad_segments ++ [mk_rejection i c m]) st'
        | (Raise err, st') =>
            (Ok (ErrorResponse "InternalFailure" (StrOf err) 500), st')
        end
  end.

(** [trace_segments]; [docs] is the parameter [TraceSegmentDocuments],
    [None] when the request has none. *)
Definition trace_segments (docs : option (list string))
  : M SegmentCollection.t response :=
  match docs with
  | None =>
      ret (ErrorResponse "MissingParameter"
             (Lit "Parameter TraceSegmentDocuments is missing") 400)
  | Some docs => trace_segments_loop docs []
  end.

End Handler.

End XRayResponse.

(** ** Notions used in the statements *)

Module Notions.
Import SegmentCollection.

(** The trace that [self._segments[tid]] denotes in a store: the stored
    one, or a new trace item. *)
Definition get_or_new (k : key) (st : t) : trace :=
  match lookup k st with
  | Some tr => tr
  | None => _new_trace_item
  end.

(** The store after [getitem] on a hashable key. *)
Definition ensure (k : key) (st : t) : t :=
  match lookup k st with
  | Some _ => st
  | None => st ++ [(k, _new_trace_item)]
  end.

(** Writing a trace under a key that is present. *)
Definition set (k : key) (v : trace) (st : t) : t := alter (fun _ => v) k st.

(** What [put_segment] does to the trace of the segment, statement by
    statement (lemma [put_segment_trace] relates the two). *)
Definition put_in_trace (segment : TraceSegment.t) (old : trace)
  : result unit * trace :=
  match insort_left (segments old) segment with
  | Raise e => (Raise e, old)
  | Ok segs =>
      let tr1 := set_segments segs old in
      match last_item segs with
      | Raise e => (Raise e, tr1)
      | Ok tail =>
          if is_not_none (TraceSegment.end_time tail) then
            let tr2 := set_finished true tr1 in
            match first_item segs with
            | Raise e => (Raise e, tr2)
            | Ok head =>
                match TraceSegment.start_date head with
                | Raise e => (Raise e, tr2)
                | Ok s =>
                    match TraceSegment.end_date tail with
                    | Raise e => (Raise e, tr2)
                    | Ok e' => (Ok tt, set_end_date e' (set_start_date s tr2))
                    end
                end
            end
          else (Ok tt, tr1)
      end
  end.

(** The store after a sequence of [put_segment] calls, whatever their
    outcomes. *)
Definition puts (calls : list TraceSegment.t) (st : t) : t :=
  fold_left (fun st segment => snd (put_segment segment st)) calls st.

(** Two neighbours of a segments list are in order when both have a start
    date and the left one is not after the right one. *)
Definition start_le (a b : TraceSegment.t) : Prop :=
  exists da db,
    TraceSegment.start_date a = Ok da /\
    TraceSegment.start_date b = Ok db /\ da <= db.

Definition sorted_by_start (l : list TraceSegment.t) : Prop :=
  Sorted start_le l.

(** The summary of an entry of the store. *)
Definition part_of (kt : key * trace) : summary_part :=
  make_summary_part (fst kt) (snd kt).

(** Every trace of the store has its segments in order. *)
Definition store_sorted (st : t) : Prop :=
  forall k tr, lookup k st = Some tr -> sorted_by_start (segments tr).

(** The greatest end date among the segments that have one: the spec's
    [max(endDate across segments)]. *)
Fixpoint max_end_date (l : list TraceSegment.t) : option Z :=
  match l with
  | [] => None
  | s :: l' =>
      match TraceSegment.end_date s, max_end_date l' with
      | Ok e, Some m => Some (Z.max e m)
      | Ok e, None => Some e
      | Raise _, r => r
      end
  end.

(** The outcomes of a batch, document by document, as the spec of the
    ingestion tells them: a document that is processed leaves no record,
    a document that raises a bad-segment exception leaves one. *)
Inductive batch (json_loads : string -> option json)
  : t -> list string -> list XRayResponse.rejection -> t -> Prop :=
| batch_done st : batch json_loads st [] [] st
| batch_ok st doc st1 docs rs st2 :
    XRayBackend.process_segment json_loads doc st = (Ok tt, st1) ->
    batch json_loads st1 docs rs st2 ->
    batch json_loads st (doc :: docs) rs st2
| batch_bad st doc i c m st1 docs rs st2 :
    XRayBackend.process_segment json_loads doc st
      = (Raise (BadSegmentException i c m), st1) ->
    batch json_loads st1 docs rs st2 ->
    batch json_loads st (doc :: docs) (XRayResponse.mk_rejection i c m :: rs) st2.

(** The document is in the store: it decodes to a dictionary, and the
    segment [from_dict] builds from it is among the segments of the
    trace of its [trace_id]. *)
Definition stored (json_loads : string -> option json) (doc : string) (st : t)
  : Prop :=
  exists d segment k tr,
    json_loads doc = Some (JObj d) /\
    TraceSegment.from_dict (JObj d) = Ok segment /\
    hash_key (TraceSegment.trace_id segment) = Ok k /\
    lookup k st = Some tr /\
    In segment (segments tr).


(** The rejections that [from_dict] writes: the code [MissingParam] with
    one of three messages. *)
Definition missing_param (e : exn) : Prop :=
  exists i m,
    e = BadSegmentException i "MissingParam" (Lit m) /\
    (m = "Missing segment ID"%string
     \/ m = "Missing end_time or in_progress"%string
     \/ m = "Missing end_time"%string).


End Notions.

(** ** Sample documents *)

Module Samples.

Definition quoted (s : string) : string :=
  (String (ascii_of_nat 34) s ++ String (ascii_of_nat 34) EmptyString)%string.

(** The text [{"id":"abc"}]. *)
Definition doc_abc : string :=
  ("{" ++ quoted "id" ++ ":" ++ quoted "abc" ++ "}")%string.

(** The text of a complete segment document with the five fields [id],
    [name], [trace_id], [start_time] and [end_time]; the times are
    written as whole seconds. *)
Definition doc_closed (i tr st en : string) : string :=
  ("{" ++ quoted "id" ++ ":" ++ quoted i ++ ","
       ++ quoted "name" ++ ":" ++ quoted "n" ++ ","
       ++ quoted "trace_id" ++ ":" ++ quoted tr ++ ","
       ++ quoted "start_time" ++ ":" ++ st ++ ","
       ++ quoted "end_time" ++ ":" ++ en ++ "}")%string.

(** The dictionary of such a document. *)
Definition closed (i tr : string) (st en : Q) : dict :=
  [("id", JStr i); ("name", JStr "n"); ("trace_id", JStr tr);
   ("start_time", JNum st); ("end_time", JNum en)].

(** The dictionary of a segment in progress, without [end_time]. *)
Definition open (i tr : string) (st : Q) : dict :=
  [("id", JStr i); ("name", JStr "n"); ("trace_id", JStr tr);
   ("start_time", JNum st); ("in_progress", JBool true)].

(** The [float] values of the literals [0.000001] and [163.9]. *)
Definition float_0_000001 : Q := 4722366482869645 # 4722366482869645213696.
Definition float_163_9 : Q := 5766718585359565 # 35184372088832.

(** The segment [from_dict] builds from a dictionary it accepts. *)
Definition segment_of (d : dict) : TraceSegment.t :=
  match TraceSegment.from_dict (JObj d) with
  | Ok s => s
  | Raise _ =>
      TraceSegment.mk JNull JNull JNull JNull JNull JNull JNull JNull JNull
        JNull JNull JNull JNull JNull JNull []
  end.

(** What [json.loads] gives on the sample documents; any other text
    stands for malformed JSON. *)
Definition sample_loads (doc : string) : option json :=
  if String.eqb doc doc_abc then Some (JObj [("id", JStr "abc")])
  else if String.eqb doc "5" then Some (JNum 5)
  else if String.eqb doc (doc_closed "s1" "t1" "100" "200")
  then Some (JObj (closed "s1" "t1" 100 200))
  else if String.eqb doc (doc_closed "s3" "t3" "300" "400")
  then Some (JObj (closed "s3" "t3" 300 400))
  else None.

End Samples.

(** ** The handlers, from the body of the request *)

(** Exceptions that leave a handler: those of [exn], and the two that
    only the request parameters raise. *)
Inductive error : Type :=
| Known (e : exn)
| AttributeError
| KeyError.

Inductive outcome (A : Type) : Type :=
| Returns (a : A)
| Raises (e : error).
Arguments Returns {A} a.
Arguments Raises {A} e.

Module TelemetryRecords.

Record t : Type := mk {
  instance_id : json;
  hostname : json;
  resource_arn : json;
  records : json
}.

(** [from_json]: [json.get(k)] on anything but a dictionary is an
    [AttributeError], [json['TelemetryRecords']] on a dictionary without
    the key a [KeyError]. *)
Definition from_json (j : json) : outcome t :=
  match j with
  | JObj d =>
      let instance_id := dict_get_default "EC2InstanceId" JNull d in
      let hostname := dict_get_default "Hostname" JNull d in
      let resource_arn := dict_get_default "ResourceARN" JNull d in
      match dict_get "TelemetryRecords" d with
      | Some telemetry_records =>
          Returns (mk instance_id hostname resource_arn telemetry_records)
      | None => Raises KeyError
      end
  | _ => Raises AttributeError
  end.

End TelemetryRecords.

Module Requests.

(** What a handler returns: the empty body, the body of
    [trace_segments], the body of [trace_summaries], or an error body
    with its status. *)
Inductive reply : Type :=
| EmptyBody
| Segments (r : XRayResponse.response)
| Summaries (r : SegmentCollection.summary_result)
| Error (type : string) (msg : text) (status : Z).

(** [datetime.datetime.fromtimestamp(int(v))] as the handler of
    [trace_summaries] sees it: a date, a [ValueError], or another
    exception with its text. *)
Inductive conversion : Type :=
| Converted (d : Z)
| NotInteger
| Failed (msg : text).

(** Modelled from the spec: [response] of [AWSError] lives in
    [moto/xray/exceptions.py], which is not among the sources; the error
    body has the code, the message and the status of the exception. *)
Definition aws_error_response (message code : string) (status : Z) : reply :=
  Error code (Lit message) status.

(** [XRayBackend.add_telemetry_records], on the list
    [_telemetry_records]. *)
Definition add_telemetry_records (j : json) (recs : list TelemetryRecords.t)
  : outcome unit * list TelemetryRecords.t :=
  match TelemetryRecords.from_json j with
  | Returns r => (Returns tt, recs ++ [r])
  | Raises e => (Raises e, recs)
  end.

(** The answer of [trace_segments] to a request without documents. *)
Definition missing_documents : reply :=
  Segments (XRayResponse.ErrorResponse "MissingParameter"
              (Lit "Parameter TraceSegmentDocuments is missing") 400).

(** [for doc in docs]: the items of a list, the characters of a string,
    the keys of a dictionary; nothing else can be iterated. *)
Definition iterate (docs : json) : outcome (list json) :=
  match docs with
  | JArr l => Returns l
  | JStr s =>
      Returns (map (fun c => JStr (String c EmptyString)) (list_ascii_of_string s))
  | JObj d => Returns (map (fun kv => JStr (fst kv)) d)
  | JNull | JBool _ | JNum _ => Raises (Known TypeError)
  end.

Section Handlers.

Variable json_loads : string -> option json.
Variable to_datetime : json -> conversion.

(** The property [request_params]. *)
Definition request_params (body : string) : json :=
  match json_loads body with
  | Some v => v
  | None => JObj []
  end.

(** [_get_param]: [request_params.get(param, default)]. *)
Definition _get_param (body : string) (param : string) (default : json)
  : outcome json :=
  match request_params body with
  | JObj d => Returns (dict_get_default param default d)
  | _ => Raises AttributeError
  end.

(** [telemetry_records] *)
Definition telemetry_records (body : string) (recs : list TelemetryRecords.t)
  : outcome reply * list TelemetryRecords.t :=
  match add_telemetry_records (request_params body) recs with
  | (Raises (Known (AWSError message code status)), recs') =>
      (Returns (aws_error_response message code status), recs')
  | (Raises e, recs') => (Raises e, recs')
  | (Returns _, recs') => (Returns EmptyBody, recs')
  end.

(** [process_segment] on an item of the documents: [json.loads] of
    anything but a string is a [TypeError]. *)
Definition process_item (doc : json) : M SegmentCollection.t unit :=
  match doc with
  | JStr s => XRayBackend.process_segment json_loads s
  | _ => lift (Raise TypeError)
  end.

(** The loop [for doc in docs] of [trace_segments]. *)
Fixpoint trace_segments_items (docs : list json)
  (bad_segments : list XRayResponse.rejection)
  : M SegmentCollection.t XRayResponse.response :=
  match docs with
  | [] => ret (XRayResponse.UnprocessedTraceSegments bad_segments)
  | doc :: docs' =>
      fun st =>
        match process_item doc st with
        | (Ok _, st') => trace_segments_items docs' bad_segments st'
        | (Raise (BadSegmentException i c m), st') =>
            trace_segments_items docs'
              (bad_segments ++ [XRayResponse.mk_rejection i c m]) st'
        | (Raise err, st') =>
            (Ok (XRayResponse.ErrorResponse "InternalFailure" (StrOf err) 500), st')
        end
  end.

(** [trace_segments] *)
Definition trace_segments (body : string) (st : SegmentCollection.t)
  : outcome reply * SegmentCollection.t :=
  match _get_param body "TraceSegmentDocuments" JNull with
  | Raises e => (Raises e, st)
  | Returns JNull => (Returns missing_documents, st)
  | Returns docs =>
      match iterate docs with
      | Raises e => (Raises e, st)
      | Returns l =>
          match trace_segments_items l [] st with
          | (Ok r, st') => (Returns (Segments r), st')
          | (Raise e, st') => (Raises (Known e), st')
          end
      end
  end.

(** [trace_summaries]; [now] is the value of [datetime.datetime.now()].
    The start time is converted first, in the same [try] as the end
    time. *)
Definition trace_summaries (body : string) (now : Z) (st : SegmentCollection.t)
  : outcome reply * SegmentCollection.t :=
  let not_integers :=
    Error "InvalidParameterValue"
      (Lit "start_time and end_time are not integers") 400 in
  match _get_param body "StartTime" JNull with
  | Raises e => (Raises e, st)
  | Returns start_time =>
  match _get_param body "EndTime" JNull with
  | Raises e => (Raises e, st)
  | Returns end_time =>
      if negb (is_not_none start_time)
      then (Returns (Error "MissingParameter"
                       (Lit "Parameter StartTime is missing") 400), st)
      else if negb (is_not_none end_time)
      then (Returns (Error "MissingParameter"
                       (Lit "Parameter EndTime is missing") 400), st)
      else
  match _get_param body "FilterExpression" JNull with
  | Raises e => (Raises e, st)
  | Returns filter_expression =>
  match _get_param body "Sampling" (JStr "false") with
  | Raises e => (Raises e, st)
  | Returns s =>
      let sampling := eq_str s "true" in
      match to_datetime start_time with
      | NotInteger => (Returns not_integers, st)
      | Failed msg => (Returns (Error "InternalFailure" msg 500), st)
      | Converted start_time =>
      match to_datetime end_time with
      | NotInteger => (Returns not_integers, st)
      | Failed msg => (Returns (Error "InternalFailure" msg 500), st)
      | Converted end_time =>
          match XRayBackend.get_trace_summary start_time end_time
                  filter_expression sampling now st with
          | (Ok result, st') => (Returns (Summaries result), st')
          | (Raise (AWSError message code status), st') =>
              (Returns (aws_error_response message code status), st')
          | (Raise err, st') =>
              (Returns (Error "InternalFailure" (StrOf err) 500), st')
          end
      end end
  end end end end.

End Handlers.

End Requests.

(** ** The trace id of a segment *)

Module TraceIdentifier.

Definition dash : ascii := "-"%char.

Fixpoint has_dash (s : string) : bool :=
  match s with
  | EmptyString => false
  | String c s' => Ascii.eqb c dash || has_dash s'
  end.

(** [s.split('-')] *)
Fixpoint split (s : string) : list string :=
  match s with
  | EmptyString => [EmptyString]
  | String c s' =>
      if Ascii.eqb c dash then EmptyString :: split s'
      else
        match split s' with
        | w :: ws => String c w :: ws
        | [] => [String c EmptyString]
        end
  end.

(** [s.split('-', 1)] *)
Fixpoint split_once (s : string) : list string :=
  match s with
  | EmptyString => [EmptyString]
  | String c s' =>
      if Ascii.eqb c dash then [EmptyString; s']
      else
        match split_once s' with
        | w :: ws => String c w :: ws
        | [] => [String c EmptyString]
        end
  end.

Section Int.

(** [int(text)] and [int(text, 16)]: [None] when they raise
    [ValueError]. *)
Variable py_int : string -> option Z.
Variable py_int16 : string -> option Z.

(** The property [trace_version]; the attribute [_trace_version] only
    memoises it.  Anything but a string has no [split]. *)
Definition trace_version (self : TraceSegment.t) : outcome Z :=
  match TraceSegment.trace_id self with
  | JStr s =>
      match nth_error (split_once s) 0 with
      | None => Raises (Known IndexError)
      | Some w =>
          match py_int w with
          | Some v => Returns v
          | None => Raises (Known ValueError)
          end
      end
  | _ => Raises AttributeError
  end.

(** The property [request_start_date]. *)
Definition request_start_date (self : TraceSegment.t) : outcome Z :=
  match TraceSegment.trace_id self with
  | JStr s =>
      match nth_error (split s) 1 with
      | None => Raises (Known IndexError)
      | Some w =>
          match py_int16 w with
          | Some start_time =>
              match fromtimestamp (JNum (start_time # 1)) with
              | Ok d => Returns d
              | Raise e => Raises (Known e)
              end
          | None => Raises (Known ValueError)
          end
      end
  | _ => Raises AttributeError
  end.

End Int.

End TraceIdentifier.

(** ** Further sample documents *)

Module MoreSamples.
Import Samples.

(** The text of a complete segment document that also has the field
    [fault], with the value [false]. *)
Definition doc_fault : string :=
  ("{" ++ quoted "id" ++ ":" ++ quoted "s2" ++ ","
       ++ quoted "name" ++ ":" ++ quoted "n" ++ ","
       ++ quoted "trace_id" ++ ":" ++ quoted "t2" ++ ","
       ++ quoted "start_time" ++ ":100,"
       ++ quoted "end_time" ++ ":200,"
       ++ quoted "fault" ++ ":false}")%string.

Definition fault_dict : dict :=
  closed "s2" "t2" 100 200 ++ [("fault", JBool false)].

(** What [json.loads] gives on that document. *)
Definition fault_loads (doc : string) : option json :=
  if String.eqb doc doc_fault then Some (JObj fault_dict) else None.

(** A text as it stands inside a JSON string: every quote is preceded by
    a backslash. *)
Fixpoint escaped (s : string) : string :=
  match s with
  | EmptyString => EmptyString
  | String c s' =>
      if Ascii.eqb c (ascii_of_nat 34)
      then String (ascii_of_nat 92) (String c (escaped s'))
      else String c (escaped s')
  end.

Definition doc1 : string := doc_closed "s1" "t1" "100" "200".
Definition doc3 : string := doc_closed "s3" "t3" "300" "400".

(** The body of a [PutTraceSegments] request with three documents, the
    second of them the malformed text of one brace. *)
Definition body_three : string :=
  ("{" ++ quoted "TraceSegmentDocuments" ++ ":["
       ++ quoted (escaped doc1) ++ "," ++ quoted "{" ++ ","
       ++ quoted (escaped doc3) ++ "]}")%string.

(** The same with the number 5 in the place of the second document. *)
Definition body_number : string :=
  ("{" ++ quoted "TraceSegmentDocuments" ++ ":["
       ++ quoted (escaped doc1) ++ ",5,"
       ++ quoted (escaped doc3) ++ "]}")%string.

(** The bodies of three [GetTraceSummaries] requests. *)
Definition body_query : string :=
  ("{" ++ quoted "StartTime" ++ ":50," ++ quoted "EndTime" ++ ":250}")%string.
Definition body_no_start : string :=
  ("{" ++ quoted "EndTime" ++ ":250}")%string.
Definition body_bad_end : string :=
  ("{" ++ quoted "StartTime" ++ ":50," ++ quoted "EndTime" ++ ":"
       ++ quoted "soon" ++ "}")%string.

(** What [json.loads] gives on these bodies and on the sample documents;
    any other text stands for malformed JSON. *)
Definition request_loads (text : string) : option json :=
  if String.eqb text body_three
  then Some (JObj [("TraceSegmentDocuments",
                    JArr [JStr doc1; JStr "{"; JStr doc3])])
  else if String.eqb text body_number
  then Some (JObj [("TraceSegmentDocuments",
                    JArr [JStr doc1; JNum 5; JStr doc3])])
  else if String.eqb text body_query
  then Some (JObj [("StartTime", JNum 50); ("EndTime", JNum 250)])
  else if String.eqb text body_no_start
  then Some (JObj [("EndTime", JNum 250)])
  else if String.eqb text body_bad_end
  then Some (JObj [("StartTime", JNum 50); ("EndTime", JStr "soon")])
  else sample_loads text.

(** What [fromtimestamp(int(v))] gives on the values of these bodies: a
    number converts by its whole seconds, a string stands for a text that
    is no integer. *)
Definition sample_to_datetime (v : json) : Requests.conversion :=
  match v with
  | JNum q =>
      match fromtimestamp (JNum (Z.quot (Qnum q) (Z.pos (Qden q)) # 1)) with
      | Ok d => Requests.Converted d
      | Raise e => Requests.Failed (StrOf e)
      end
  | JStr _ => Requests.NotInteger
  | _ => Requests.Failed (StrOf TypeError)
  end.

(** What [int] gives on the text [1] and [int(text, 16)] on the text
    [58406520]; any other text stands for one that is no number. *)
Definition sample_int (text : string) : option Z :=
  if String.eqb text "1" then Some 1 else None.
Definition sample_int16 (text : string) : option Z :=
  if String.eqb text "58406520" then Some 1480615200 else None.

End MoreSamples.

(** * Properties *)

(** ** The dictionary of traces *)

Module StoreFacts.
Import SegmentCollection Notions.

Lemma key_eqb_eq (a b : key) : key_eqb a b = true <-> a = b.
Proof.
  destruct a as [|[pn pd]|s], b as [|[qn qd]|s']; simpl;
    try (split; [discriminate | intros H; inversion H]);
    try (split; reflexivity).
  - rewrite andb_true_iff, Z.eqb_eq, Pos.eqb_eq.
    split; [intros [-> ->]; reflexivity | intros H; inversion H; auto].
  - rewrite String.eqb_eq. split; [intros ->; reflexivity | intros H; inversion H; auto].
Qed.

Lemma key_eqb_refl (k : key) : key_eqb k k = true.
Proof. apply key_eqb_eq. reflexivity. Qed.

Lemma key_eqb_neq (a b : key) : a <> b -> key_eqb a b = false.
Proof.
  intros H. destruct (key_eqb a b) eqn:E; [|reflexivity].
  apply key_eqb_eq in E. contradiction.
Qed.

Lemma lookup_app_absent k v st :
  lookup k st = None -> lookup k (st ++ [(k, v)]) = Some v.
Proof.
  induction st as [|[k' tr] st IH]; simpl.
  - rewrite key_eqb_refl. reflexivity.
  - destruct (key_eqb k' k); [discriminate | exact IH].
Qed.

Lemma lookup_app_other k k' v st :
  k' <> k -> lookup k' (st ++ [(k, v)]) = lookup k' st.
Proof.
  intros Hne. induction st as [|[k2 tr] st IH]; simpl.
  - rewrite (key_eqb_neq k k'); [reflexivity | congruence].
  - destruct (key_eqb k2 k'); [reflexivity | exact IH].
Qed.

Lemma lookup_ensure k st : lookup k (ensure k st) = Some (get_or_new k st).
Proof.
  unfold ensure, get_or_new. destruct (lookup k st) eqn:E.
  - exact E.
  - apply lookup_app_absent. exact E.
Qed.

Lemma lookup_ensure_other k k' st :
  k' <> k -> lookup k' (ensure k st) = lookup k' st.
Proof.
  intros Hne. unfold ensure. destruct (lookup k st); [reflexivity|].
  apply lookup_app_other. exact Hne.
Qed.

Lemma lookup_alter k f st :
  lookup k (alter f k st) = option_map f (lookup k st).
Proof.
  induction st as [|[k' tr] st IH]; simpl; [reflexivity|].
  destruct (key_eqb k' k) eqn:E; simpl; rewrite E; [reflexivity | exact IH].
Qed.

Lemma lookup_alter_other k k' f st :
  k' <> k -> lookup k' (alter f k st) = lookup k' st.
Proof.
  intros Hne. induction st as [|[k2 tr] st IH]; simpl; [reflexivity|].
  destruct (key_eqb k2 k) eqn:E; simpl.
  - apply key_eqb_eq in E. subst k2.
    rewrite (key_eqb_neq k k'); [reflexivity | congruence].
  - destruct (key_eqb k2 k'); [reflexivity | exact IH].
Qed.

Lemma alter_as_set k f tr st :
  lookup k st = Some tr -> alter f k st = set k (f tr) st.
Proof.
  unfold set. induction st as [|[k' tr'] st IH]; simpl; [reflexivity|].
  destruct (key_eqb k' k).
  - intros H. inversion H. reflexivity.
  - intros H. rewrite (IH H). reflexivity.
Qed.

Lemma set_set k v w st : set k v (set k w st) = set k v st.
Proof.
  unfold set. induction st as [|[k' tr'] st IH]; simpl; [reflexivity|].
  destruct (key_eqb k' k) eqn:E; simpl; rewrite E; [reflexivity|].
  rewrite IH. reflexivity.
Qed.

Lemma lookup_set k v tr st :
  lookup k st = Some tr -> lookup k (set k v st) = Some v.
Proof. intros H. unfold set. rewrite lookup_alter, H. reflexivity. Qed.

Lemma set_same k tr st : lookup k st = Some tr -> set k tr st = st.
Proof.
  unfold set. induction st as [|[k' tr'] st IH]; simpl; [reflexivity|].
  destruct (key_eqb k' k).
  - intros H. inversion H. reflexivity.
  - intros H. rewrite (IH H). reflexivity.
Qed.

Lemma lookup_set_other k k' v st :
  k' <> k -> lookup k' (set k v st) = lookup k' st.
Proof. apply lookup_alter_other. Qed.

(** [getitem] and [update] on a key that is present. *)
Lemma getitem_present tid k tr st :
  hash_key tid = Ok k -> lookup k st = Some tr -> getitem tid st = (Ok tr, st).
Proof. intros Hk Hl. unfold getitem. rewrite Hk, Hl. reflexivity. Qed.

Lemma getitem_run tid k st :
  hash_key tid = Ok k -> getitem tid st = (Ok (get_or_new k st), ensure k st).
Proof.
  intros Hk. unfold getitem, get_or_new, ensure. rewrite Hk.
  destruct (lookup k st); reflexivity.
Qed.

Lemma update_present tid k f tr st :
  hash_key tid = Ok k -> lookup k st = Some tr ->
  update tid f st = (Ok tt, set k (f tr) st).
Proof.
  intros Hk Hl. unfold update, bind.
  rewrite (getitem_present tid k tr st Hk Hl), Hk.
  rewrite (alter_as_set k f tr st Hl). reflexivity.
Qed.

Lemma getitem_unhashable tid e st :
  hash_key tid = Raise e -> getitem tid st = (Raise e, st).
Proof. intros Hk. unfold getitem. rewrite Hk. reflexivity. Qed.

End StoreFacts.

(** ** put_segment, trace by trace *)

Module PutFacts.
Import SegmentCollection Notions StoreFacts.

Lemma bind_run {S A B : Type} (m : M S A) (k : A -> M S B) a s s' :
  m s = (Ok a, s') -> bind m k s = k a s'.
Proof. intros H. unfold bind. rewrite H. reflexivity. Qed.

Lemma bind_lift_ok {S A B : Type} (a : A) (k : A -> M S B) s :
  bind (lift (Ok a)) k s = k a s.
Proof. reflexivity. Qed.

Lemma bind_lift_raise {S A B : Type} e (k : A -> M S B) s :
  bind (lift (Raise e)) k s = (Raise e, s).
Proof. reflexivity. Qed.

(** [put_segment] touches the trace of the segment only, and does to it
    what [put_in_trace] says. *)
Lemma put_segment_trace segment k st :
  hash_key (TraceSegment.trace_id segment) = Ok k ->
  put_segment segment st =
    (fst (put_in_trace segment (get_or_new k st)),
     set k (snd (put_in_trace segment (get_or_new k st))) (ensure k st)).
Proof.
  intros Hk.
  pose proof (lookup_ensure k st) as L0.
  unfold put_segment, put_in_trace.
  set (old := get_or_new k st) in *.
  rewrite (bind_run _ _ _ _ _ (getitem_run _ k st Hk)). fold old.
  destruct (insort_left (segments old) segment) as [segs|e].
  2:{ rewrite bind_lift_raise. simpl. rewrite (set_same k old _ L0). reflexivity. }
  rewrite bind_lift_ok.
  rewrite (bind_run _ _ _ _ _ (update_present _ k _ old _ Hk L0)).
  pose proof (lookup_set k (set_segments segs old) old _ L0) as L1.
  rewrite (bind_run _ _ _ _ _ (getitem_present _ k _ _ Hk L1)).
  cbn [segments set_segments].
  destruct (last_item segs) as [tail|e] eqn:Et.
  2:{ rewrite bind_lift_raise. reflexivity. }
  rewrite bind_lift_ok.
  destruct (is_not_none (TraceSegment.end_time tail)); [|reflexivity].
  rewrite (bind_run _ _ _ _ _ (update_present _ k _ _ _ Hk L1)). rewrite set_set.
  pose proof (lookup_set k (set_finished true (set_segments segs old)) old _ L0) as L2.
  rewrite (bind_run _ _ _ _ _ (getitem_present _ k _ _ Hk L2)).
  cbn [segments set_segments set_finished].
  destruct (first_item segs) as [head|e].
  2:{ rewrite bind_lift_raise. reflexivity. }
  rewrite bind_lift_ok.
  destruct (TraceSegment.start_date head) as [s|e].
  2:{ rewrite bind_lift_raise. reflexivity. }
  rewrite bind_lift_ok.
  rewrite (bind_run _ _ _ _ _ (getitem_present _ k _ _ Hk L2)).
  cbn [segments set_segments set_finished]. rewrite Et, bind_lift_ok.
  destruct (TraceSegment.end_date tail) as [e'|e].
  2:{ rewrite bind_lift_raise. reflexivity. }
  rewrite bind_lift_ok.
  rewrite (bind_run _ _ _ _ _ (update_present _ k _ _ _ Hk L2)). rewrite set_set.
  pose proof (lookup_set k (set_start_date s (set_finished true (set_segments segs old)))
                old _ L0) as L3.
  rewrite (update_present _ k _ _ _ Hk L3). rewrite set_set.
  reflexivity.
Qed.

Lemma put_segment_unhashable segment e st :
  hash_key (TraceSegment.trace_id segment) = Raise e ->
  put_segment segment st = (Raise e, st).
Proof.
  intros Hk. unfold put_segment, bind.
  rewrite (getitem_unhashable _ e st Hk). reflexivity.
Qed.

End PutFacts.

(** ** bisect on a list ordered by start date *)

Module BisectFacts.
Import Notions.

Lemma mid_bounds (lo hi : nat) :
  (lo < hi)%nat -> (lo <= (lo + hi) / 2 < hi)%nat.
Proof.
  intros H. split.
  - apply Nat.div_le_lower_bound; lia.
  - apply Nat.Div0.div_lt_upper_bound; lia.
Qed.

(** One turn of the [while] loop, for any bound that covers [hi - lo]. *)
Lemma bisect_left_loop_unfold n a x lo hi :
  (hi - lo <= n)%nat ->
  bisect_left_loop n a x lo hi =
    if (lo <? hi)%nat then
      match nth_error a ((lo + hi) / 2) with
      | None => Raise IndexError
      | Some am =>
          match TraceSegment.lt am x with
          | Raise e => Raise e
          | Ok true => bisect_left_loop (n - 1) a x (S ((lo + hi) / 2)) hi
          | Ok false => bisect_left_loop (n - 1) a x lo ((lo + hi) / 2)
          end
      end
    else Ok lo.
Proof.
  intros H. destruct n as [|n]; cbn [bisect_left_loop].
  - destruct (Nat.ltb_spec lo hi); [lia | reflexivity].
  - replace (S n - 1)%nat with n by lia. reflexivity.
Qed.

(** The result does not depend on the bound once it covers [hi - lo]:
    the loop has ended by then. *)
Lemma bisect_left_loop_bound n m a x lo hi :
  (hi - lo <= n)%nat -> (hi - lo <= m)%nat ->
  bisect_left_loop n a x lo hi = bisect_left_loop m a x lo hi.
Proof.
  revert m lo hi. induction n as [|n IH]; intros m lo hi Hn Hm.
  - destruct m; cbn [bisect_left_loop]; [reflexivity|].
    destruct (Nat.ltb_spec lo hi); [lia | reflexivity].
  - destruct m as [|m]; cbn [bisect_left_loop].
    + destruct (Nat.ltb_spec lo hi); [lia | reflexivity].
    + destruct (Nat.ltb_spec lo hi) as [Hlt|]; [|reflexivity].
      pose proof (mid_bounds lo hi Hlt) as [Hl Hh].
      destruct (nth_error a ((lo + hi) / 2)) as [am|]; [|reflexivity].
      destruct (TraceSegment.lt am x) as [[|]|e]; [| |reflexivity];
        apply IH; lia.
Qed.

Lemma lt_ok_dates am x b :
  TraceSegment.lt am x = Ok b ->
  exists da dx,
    TraceSegment.start_date am = Ok da /\
    TraceSegment.start_date x = Ok dx /\ b = (da <? dx).
Proof.
  unfold TraceSegment.lt.
  destruct (TraceSegment.start_date am) as [da|]; [|discriminate].
  destruct (TraceSegment.start_date x) as [dx|]; [|discriminate].
  intros H. inversion H. exists da, dx. auto.
Qed.

Lemma lt_of_dates am x da dx :
  TraceSegment.start_date am = Ok da ->
  TraceSegment.start_date x = Ok dx ->
  TraceSegment.lt am x = Ok (da <? dx).
Proof. intros Ha Hx. unfold TraceSegment.lt. rewrite Ha, Hx. reflexivity. Qed.

Lemma start_le_trans a b c : start_le a b -> start_le b c -> start_le a c.
Proof.
  intros (da & db & Ha & Hb & Hab) (db' & dc & Hb' & Hc & Hbc).
  rewrite Hb in Hb'. inversion Hb'. subst db'.
  exists da, dc. repeat split; auto. lia.
Qed.

Lemma sorted_strongly l : sorted_by_start l -> StronglySorted start_le l.
Proof.
  apply Sorted_StronglySorted. intros a b c. apply start_le_trans.
Qed.

(** In a sorted list, one segment with a start date means all have one. *)
Lemma sorted_all_dated l :
  sorted_by_start l ->
  (exists y d, In y l /\ TraceSegment.start_date y = Ok d) ->
  forall y, In y l -> exists d, TraceSegment.start_date y = Ok d.
Proof.
  intros Hs. induction Hs as [|a l Hs IH Hd]; intros (y0 & d0 & Hin0 & Hd0) y Hin.
  - destruct Hin.
  - destruct l as [|b l'].
    + destruct Hin0 as [<-|[]]. destruct Hin as [<-|[]]. eauto.
    + apply HdRel_inv in Hd. destruct Hd as (da & db & Ha & Hb & _).
      destruct Hin as [<-|Hin]; [eauto|].
      apply IH; [|exact Hin]. exists b, db. split; [left; reflexivity | exact Hb].
Qed.

Lemma strongly_sorted_nth (l : list TraceSegment.t) :
  StronglySorted start_le l ->
  forall i j yi yj, (i < j)%nat ->
    nth_error l i = Some yi -> nth_error l j = Some yj -> start_le yi yj.
Proof.
  induction 1 as [|a l Hs IH Hall]; intros i j yi yj Hij Hi Hj.
  - destruct i; discriminate.
  - destruct j as [|j]; [lia|]. simpl in Hj.
    destruct i as [|i]; simpl in Hi.
    + inversion Hi. subst a. rewrite Forall_forall in Hall.
      apply Hall. eapply nth_error_In. exact Hj.
    + apply (IH i j); auto. lia.
Qed.

Section Loop.
Variable a : list TraceSegment.t.
Variable x : TraceSegment.t.
Variable dx : Z.
Hypothesis Hx : TraceSegment.start_date x = Ok dx.
Hypothesis Hdated :
  forall y, In y a -> exists d, TraceSegment.start_date y = Ok d.
Hypothesis Hsorted : StronglySorted start_le a.

(** The loop keeps every segment left of [lo] before [x] and every
    segment from [hi] on not before [x]. *)
Lemma bisect_left_loop_correct n :
  forall lo hi,
    (hi - lo <= n)%nat -> (lo <= hi <= length a)%nat ->
    (forall j y, (j < lo)%nat -> nth_error a j = Some y ->
                 TraceSegment.lt y x = Ok true) ->
    (forall j y, (hi <= j)%nat -> nth_error a j = Some y ->
                 TraceSegment.lt y x = Ok false) ->
    exists i,
      bisect_left_loop n a x lo hi = Ok i /\ (lo <= i <= hi)%nat /\
      (forall j y, (j < i)%nat -> nth_error a j = Some y ->
                   TraceSegment.lt y x = Ok true) /\
      (forall j y, (i <= j)%nat -> nth_error a j = Some y ->
                   TraceSegment.lt y x = Ok false).
Proof.
  induction n as [|n IH]; intros lo hi Hn Hb Hlo Hhi.
  - cbn [bisect_left_loop]. exists lo. repeat split; auto; try lia.
    intros j y Hj. apply Hhi. lia.
  - cbn [bisect_left_loop]. destruct (Nat.ltb_spec lo hi) as [Hlt|Hge].
    2:{ exists lo. repeat split; auto; try lia.
        intros j y Hj. apply Hhi. lia. }
    pose proof (mid_bounds lo hi Hlt) as [Hl Hh].
    set (mid := ((lo + hi) / 2)%nat) in *.
    destruct (nth_error a mid) as [am|] eqn:Em.
    2:{ apply nth_error_None in Em. lia. }
    destruct (Hdated am (nth_error_In _ _ Em)) as [dm Hdm].
    rewrite (lt_of_dates am x dm dx Hdm Hx).
    destruct (Z.ltb_spec dm dx) as [Hc|Hc].
    + destruct (IH (S mid) hi) as (i & Hi & Hr & H1 & H2); auto; try lia.
      { intros j y Hj Hy.
        destruct (Nat.eq_dec j mid) as [->|Hne].
        - rewrite Em in Hy. inversion Hy. subst y.
          rewrite (lt_of_dates _ _ _ _ Hdm Hx).
          f_equal. apply Z.ltb_lt. exact Hc.
        - assert (Hjm : (j < mid)%nat) by lia.
          destruct (strongly_sorted_nth a Hsorted j mid y am Hjm Hy Em)
            as (dy & dm' & Hdy & Hdm' & Hle).
          rewrite Hdm in Hdm'. inversion Hdm'. subst dm'.
          rewrite (lt_of_dates _ _ _ _ Hdy Hx).
          f_equal. apply Z.ltb_lt. lia. }
      exists i. repeat split; auto; lia.
    + destruct (IH lo mid) as (i & Hi & Hr & H1 & H2); auto; try lia.
      { intros j y Hj Hy.
        destruct (Nat.eq_dec j mid) as [->|Hne].
        - rewrite Em in Hy. inversion Hy. subst y.
          rewrite (lt_of_dates _ _ _ _ Hdm Hx).
          f_equal. apply Z.ltb_ge. exact Hc.
        - assert (Hjm : (mid < j)%nat) by lia.
          destruct (strongly_sorted_nth a Hsorted mid j am y Hjm Em Hy)
            as (dm' & dy & Hdm' & Hdy & Hle).
          rewrite Hdm in Hdm'. inversion Hdm'. subst dm'.
          rewrite (lt_of_dates _ _ _ _ Hdy Hx).
          f_equal. apply Z.ltb_ge. lia. }
      exists i. repeat split; auto; lia.
Qed.

Lemma bisect_left_correct :
  exists i,
    bisect_left a x = Ok i /\ (i <= length a)%nat /\
    (forall y, In y (firstn i a) -> TraceSegment.lt y x = Ok true) /\
    (forall y, In y (skipn i a) -> TraceSegment.lt y x = Ok false).
Proof.
  assert (Hlen : forall j y, nth_error a j = Some y -> (j < length a)%nat).
  { intros j y Hy. apply nth_error_Some. rewrite Hy. discriminate. }
  destruct (bisect_left_loop_correct (length a) 0%nat (length a))
    as (i & Hi & Hr & H1 & H2).
  { lia. }
  { lia. }
  { intros j y Hj. lia. }
  { intros j y Hj Hy. apply Hlen in Hy. lia. }
  exists i. split; [exact Hi|]. split; [lia|]. split.
  - intros y Hin. apply In_nth_error in Hin. destruct Hin as [j Hj].
    assert (Hlt : (j < i)%nat).
    { assert (j < length (firstn i a))%nat
        by (apply nth_error_Some; rewrite Hj; discriminate).
      rewrite length_firstn in H. lia. }
    rewrite nth_error_firstn in Hj.
    destruct (Nat.ltb_spec j i); [|lia].
    apply (H1 j y Hlt Hj).
  - intros y Hin. apply In_nth_error in Hin. destruct Hin as [j Hj].
    rewrite nth_error_skipn in Hj.
    apply (H2 (i + j)%nat y); [lia | exact Hj].
Qed.

End Loop.

(** On a list that is not empty the loop compares [x] at least once. *)
Lemma bisect_left_compares a x i :
  a <> [] -> bisect_left a x = Ok i ->
  exists am b, In am a /\ TraceSegment.lt am x = Ok b.
Proof.
  intros Hne. unfold bisect_left.
  rewrite bisect_left_loop_unfold by lia.
  destruct (Nat.ltb_spec 0 (length a)) as [Hlt|Hge].
  2:{ destruct a; [congruence | simpl in Hge; lia]. }
  destruct (nth_error a ((0 + length a) / 2)) as [am|] eqn:Em; [|discriminate].
  destruct (TraceSegment.lt am x) as [b|e] eqn:El; [|discriminate].
  intros _. exists am, b. split; [eapply nth_error_In; exact Em | exact El].
Qed.

Lemma strongly_sorted_insert (l1 l2 : list TraceSegment.t) x :
  StronglySorted start_le (l1 ++ l2) ->
  (forall y, In y l1 -> start_le y x) ->
  (forall y, In y l2 -> start_le x y) ->
  StronglySorted start_le (l1 ++ x :: l2).
Proof.
  induction l1 as [|a l1 IH]; simpl; intros Hs H1 H2.
  - constructor; [exact Hs|]. apply Forall_forall. exact H2.
  - apply StronglySorted_inv in Hs. destruct Hs as [Hs Hall].
    constructor.
    + apply IH; auto.
    + rewrite Forall_forall in *. intros y Hy.
      apply in_app_or in Hy. destruct Hy as [Hy|[<-|Hy]].
      * apply Hall. apply in_or_app. left. exact Hy.
      * apply H1. left. reflexivity.
      * apply Hall. apply in_or_app. right. exact Hy.
Qed.

(** [insort_left] on a list ordered by start date: the new segment goes
    between the segments before it and the segments not before it, and
    the list stays ordered. *)
Lemma insort_left_sorted a x l' :
  sorted_by_start a -> insort_left a x = Ok l' ->
  exists l1 l2,
    a = l1 ++ l2 /\ l' = l1 ++ x :: l2 /\
    (forall y, In y l1 -> TraceSegment.lt y x = Ok true) /\
    (forall y, In y l2 -> TraceSegment.lt y x = Ok false) /\
    sorted_by_start l'.
Proof.
  intros Hs. unfold insort_left.
  destruct (bisect_left a x) as [i|e] eqn:Eb; [|discriminate].
  intros H. inversion H. subst l'. clear H.
  destruct a as [|a0 a'].
  - unfold bisect_left in Eb. simpl in Eb. inversion Eb. subst i.
    exists [], []. repeat split; try (intros y []).
    constructor; constructor.
  - destruct (bisect_left_compares (a0 :: a') x i) as (am & b & Hin & Hlt);
      [discriminate | exact Eb |].
    destruct (lt_ok_dates am x b Hlt) as (dm & dx & Hdm & Hdx & _).
    assert (Hdated : forall y, In y (a0 :: a') ->
              exists d, TraceSegment.start_date y = Ok d).
    { apply sorted_all_dated; [exact Hs|]. exists am, dm. auto. }
    pose proof (sorted_strongly _ Hs) as Hss.
    destruct (bisect_left_correct (a0 :: a') x dx Hdx Hdated Hss)
      as (i' & Hi' & Hle & H1 & H2).
    rewrite Eb in Hi'. inversion Hi'. subst i'. clear Hi'.
    exists (firstn i (a0 :: a')), (skipn i (a0 :: a')).
    split; [symmetry; apply firstn_skipn|].
    split; [reflexivity|]. split; [exact H1|]. split; [exact H2|].
    apply StronglySorted_Sorted. apply strongly_sorted_insert.
    + rewrite firstn_skipn. exact Hss.
    + intros y Hy. destruct (lt_ok_dates _ _ _ (H1 y Hy)) as (dy & dx' & Hy1 & Hx1 & Hb).
      exists dy, dx'. repeat split; auto.
      symmetry in Hb. apply Z.ltb_lt in Hb. lia.
    + intros y Hy. destruct (lt_ok_dates _ _ _ (H2 y Hy)) as (dy & dx' & Hy1 & Hx1 & Hb).
      exists dx', dy. repeat split; auto.
      symmetry in Hb. apply Z.ltb_ge in Hb. exact Hb.
Qed.

End BisectFacts.

(** ** The order of the segments of every trace *)

Module OrderFacts.
Import SegmentCollection Notions StoreFacts PutFacts BisectFacts.

Lemma put_in_trace_segments segment old :
  segments (snd (put_in_trace segment old)) =
    match insort_left (segments old) segment with
    | Ok segs => segs
    | Raise _ => segments old
    end.
Proof.
  unfold put_in_trace.
  destruct (insort_left (segments old) segment) as [segs|e]; [|reflexivity].
  destruct (last_item segs) as [tail|e]; [|reflexivity].
  destruct (is_not_none (TraceSegment.end_time tail)); [|reflexivity].
  destruct (first_item segs) as [head|e]; [|reflexivity].
  destruct (TraceSegment.start_date head) as [s|e]; [|reflexivity].
  destruct (TraceSegment.end_date tail) as [e'|e]; reflexivity.
Qed.

Lemma get_or_new_sorted k st :
  store_sorted st -> sorted_by_start (segments (get_or_new k st)).
Proof.
  intros Hs. unfold get_or_new. destruct (lookup k st) as [tr|] eqn:E.
  - apply (Hs k tr E).
  - constructor.
Qed.

Lemma put_in_trace_sorted segment old :
  sorted_by_start (segments old) ->
  sorted_by_start (segments (snd (put_in_trace segment old))).
Proof.
  intros Hs. rewrite put_in_trace_segments.
  destruct (insort_left (segments old) segment) as [segs|e] eqn:E; [|exact Hs].
  destruct (insort_left_sorted _ _ _ Hs E) as (l1 & l2 & _ & _ & _ & _ & H).
  exact H.
Qed.

(** The trace of a key after a [put_segment]. *)
Lemma lookup_put segment k st k' :
  hash_key (TraceSegment.trace_id segment) = Ok k ->
  lookup k' (snd (put_segment segment st)) =
    if key_eqb k k' then Some (snd (put_in_trace segment (get_or_new k st)))
    else lookup k' st.
Proof.
  intros Hk. rewrite (put_segment_trace segment k st Hk). simpl snd.
  destruct (key_eqb k k') eqn:E.
  - apply key_eqb_eq in E. subst k'.
    apply (lookup_set k _ (get_or_new k st)). apply lookup_ensure.
  - assert (Hne : k' <> k).
    { intros ->. rewrite key_eqb_refl in E. discriminate. }
    rewrite lookup_set_other by exact Hne.
    apply lookup_ensure_other. exact Hne.
Qed.

Lemma put_segment_sorted segment st :
  store_sorted st -> store_sorted (snd (put_segment segment st)).
Proof.
  intros Hs k' tr.
  destruct (hash_key (TraceSegment.trace_id segment)) as [k|e] eqn:Hk.
  - rewrite (lookup_put segment k st k' Hk).
    destruct (key_eqb k k').
    + intros H. inversion H. apply put_in_trace_sorted.
      apply get_or_new_sorted. exact Hs.
    + apply Hs.
  - rewrite (put_segment_unhashable segment e st Hk). apply Hs.
Qed.

Lemma puts_snoc calls segment st :
  puts (calls ++ [segment]) st = snd (put_segment segment (puts calls st)).
Proof. unfold puts. rewrite fold_left_app. reflexivity. Qed.

Lemma puts_sorted calls st : store_sorted st -> store_sorted (puts calls st).
Proof.
  revert st. induction calls as [|c calls IH]; intros st Hs; simpl.
  - exact Hs.
  - apply IH. apply put_segment_sorted. exact Hs.
Qed.

Lemma empty_sorted : store_sorted empty.
Proof. intros k tr H. discriminate. Qed.

End OrderFacts.

(** ** put_segment: order, completion and window *)

Module PutSegment.
Import SegmentCollection Notions StoreFacts PutFacts BisectFacts OrderFacts.
Import Samples.

Lemma last_item_app (l : list TraceSegment.t) tail :
  last_item l = Ok tail -> exists l0, l = l0 ++ [tail].
Proof.
  unfold last_item. destruct (rev l) as [|x r] eqn:E; [discriminate|].
  intros H. inversion H. subst x. exists (rev r).
  rewrite <- (rev_involutive l), E. reflexivity.
Qed.

Lemma strongly_sorted_head (l : list TraceSegment.t) head :
  StronglySorted start_le l -> first_item l = Ok head ->
  forall s, In s l -> s = head \/ start_le head s.
Proof.
  intros Hs Hf s Hin. destruct l as [|a l]; [discriminate|].
  simpl in Hf. inversion Hf. subst a.
  apply StronglySorted_inv in Hs. destruct Hs as [_ Hall].
  rewrite Forall_forall in Hall.
  destruct Hin as [<-|Hin]; [left; reflexivity | right; apply Hall; exact Hin].
Qed.

Lemma strongly_sorted_app_last (l0 : list TraceSegment.t) tail :
  StronglySorted start_le (l0 ++ [tail]) ->
  forall s, In s l0 -> start_le s tail.
Proof.
  induction l0 as [|a l0 IH]; simpl; intros Hs s Hin; [destruct Hin|].
  apply StronglySorted_inv in Hs. destruct Hs as [Hs Hall].
  rewrite Forall_forall in Hall.
  destruct Hin as [<-|Hin].
  - apply Hall. apply in_or_app. right. left. reflexivity.
  - apply IH; assumption.
Qed.

Lemma insort_left_in a x l' : insort_left a x = Ok l' -> In x l'.
Proof.
  unfold insort_left, list_insert.
  destruct (bisect_left a x); [|discriminate].
  intros H. inversion H. apply in_or_app. right. left. reflexivity.
Qed.

(** C2.  After every sequence of [put_segment] calls followed by one more
    call, the segments of every trace are in non-decreasing order of
    start date; and when the last call inserts its segment, the segment
    stands after the segments that start strictly before it and before
    all the others, so to the left of those with an equal start date. *)
Theorem put_segment_keeps_order :
  forall (calls : list TraceSegment.t) (segment : TraceSegment.t) (k : key),
    hash_key (TraceSegment.trace_id segment) = Ok k ->
    let st := puts calls empty in
    let st' := snd (put_segment segment st) in
    let old := segments (get_or_new k st) in
    (forall k' tr, lookup k' st' = Some tr -> sorted_by_start (segments tr)) /\
    exists tr',
      lookup k st' = Some tr' /\
      match insort_left old segment with
      | Raise _ => segments tr' = old
      | Ok _ =>
          exists l1 l2,
            old = l1 ++ l2 /\ segments tr' = l1 ++ segment :: l2 /\
            (forall y, In y l1 ->
               exists dy d, TraceSegment.start_date y = Ok dy /\
                 TraceSegment.start_date segment = Ok d /\ dy < d) /\
            (forall y, In y l2 ->
               exists dy d, TraceSegment.start_date y = Ok dy /\
                 TraceSegment.start_date segment = Ok d /\ d <= dy)
      end.
Proof.
  intros calls segment k Hk st st' old.
  assert (Hst : store_sorted st) by (apply puts_sorted, empty_sorted).
  split.
  - apply put_segment_sorted. exact Hst.
  - exists (snd (put_in_trace segment (get_or_new k st))). split.
    + unfold st'. rewrite (lookup_put segment k st k Hk), key_eqb_refl. reflexivity.
    + rewrite put_in_trace_segments. fold old.
      destruct (insort_left old segment) as [segs|e] eqn:E; [|reflexivity].
      destruct (insort_left_sorted old segment segs (get_or_new_sorted k st Hst) E)
        as (l1 & l2 & H1 & H2 & H3 & H4 & _).
      exists l1, l2. repeat split; auto.
      * intros y Hy. destruct (lt_ok_dates _ _ _ (H3 y Hy)) as (dy & d & Hdy & Hd & Hb).
        exists dy, d. repeat split; auto. symmetry in Hb. apply Z.ltb_lt in Hb. exact Hb.
      * intros y Hy. destruct (lt_ok_dates _ _ _ (H4 y Hy)) as (dy & d & Hdy & Hd & Hb).
        exists dy, d. repeat split; auto. symmetry in Hb. apply Z.ltb_ge in Hb. exact Hb.
Qed.

(** A segment that starts when a stored one does goes to its left. *)
Lemma put_segment_keeps_order_witness :
  let a := segment_of (closed "a" "t" 10 100) in
  let b := segment_of (closed "b" "t" 10 30) in
  hash_key (TraceSegment.trace_id b) = Ok (KStr "t") /\
  exists tr',
    lookup (KStr "t") (snd (put_segment b (puts [a] empty))) = Some tr' /\
    segments tr' = [b; a] /\ sorted_by_start (segments tr').
Proof.
  intros a b. split; [reflexivity|].
  destruct (put_segment_keeps_order [a] b (KStr "t") eq_refl) as (Hs & tr' & Hl & _).
  exists tr'. split; [exact Hl|]. split.
  - vm_compute in Hl. inversion Hl. reflexivity.
  - apply (Hs (KStr "t") tr' Hl).
Defined.

(** The branch of [put_segment] taken when the last segment has an end
    time: [finished] is true, and the last segment is not open. *)
Ltac closed_tail H :=
  split; [reflexivity|];
  intros ? ? ?; exfalso; eapply H; eauto; reflexivity.

(** C7.  A [put_segment] never resets [finished]; and when the last
    segment of the trace has no end time after it, [finished] and the
    window ([start_date], [end_date]) of the trace are what they were
    before (those of a new trace item for a trace that did not exist). *)
Theorem put_segment_open_tail_frame :
  forall (st : t) (segment : TraceSegment.t) (k : key),
    hash_key (TraceSegment.trace_id segment) = Ok k ->
    let old := get_or_new k st in
    exists tr',
      lookup k (snd (put_segment segment st)) = Some tr' /\
      (finished old = true -> finished tr' = true) /\
      (forall tail,
         last_item (segments tr') = Ok tail ->
         TraceSegment.end_time tail = JNull ->
         finished tr' = finished old /\
         start_date tr' = start_date old /\
         end_date tr' = end_date old).
Proof.
  intros st segment k Hk old.
  exists (snd (put_in_trace segment old)). split.
  - rewrite (lookup_put segment k st k Hk), key_eqb_refl. reflexivity.
  - unfold put_in_trace.
    destruct (insort_left (segments old) segment) as [segs|e]; simpl snd.
    2:{ split; auto. }
    destruct (last_item segs) as [tail'|e] eqn:Et; simpl snd.
    2:{ split; auto. }
    destruct (is_not_none (TraceSegment.end_time tail')) eqn:En.
    2:{ simpl snd. split; auto. }
    assert (Hcontra : forall tr' tail,
              segments tr' = segs -> last_item (segments tr') = Ok tail ->
              TraceSegment.end_time tail = JNull -> False).
    { intros tr' tail Hseg Hl Hnull. rewrite Hseg, Et in Hl. inversion Hl. subst tail'.
      rewrite Hnull in En. discriminate. }
    destruct (first_item segs) as [head|e]; simpl snd; [|closed_tail Hcontra].
    destruct (TraceSegment.start_date head) as [s|e]; simpl snd; [|closed_tail Hcontra].
    destruct (TraceSegment.end_date tail') as [e'|e]; simpl snd; closed_tail Hcontra.
Qed.

(** A finished trace receives a later segment that is still open. *)
Lemma put_segment_open_tail_frame_witness :
  let a := segment_of (closed "a" "t" 10 100) in
  let c := segment_of (open "c" "t" 20) in
  hash_key (TraceSegment.trace_id c) = Ok (KStr "t") /\
  exists tr',
    lookup (KStr "t") (snd (put_segment c (puts [a] empty))) = Some tr' /\
    segments tr' = [a; c] /\
    finished tr' = true /\ start_date tr' = 10000000 /\ end_date tr' = 100000000.
Proof.
  intros a c. split; [reflexivity|].
  destruct (put_segment_open_tail_frame (puts [a] empty) c (KStr "t") eq_refl)
    as (tr' & Hl & _ & Hframe).
  exists tr'. split; [exact Hl|].
  assert (Hseg : segments tr' = [a; c]).
  { vm_compute in Hl. inversion Hl. reflexivity. }
  split; [exact Hseg|].
  apply (Hframe c).
  - rewrite Hseg. reflexivity.
  - reflexivity.
Defined.

(** C1, as stated, fails: with the segments (start 10, end 100) and
    (start 20, end 30) of one trace, the last segment by start date has
    an end time and the trace is finished, but [end_date] is 30, the end
    of that last segment, and not 100, the greatest end date. *)
Lemma window_end_is_not_the_greatest_end :
  let a := segment_of (closed "a" "t" 10 100) in
  let b := segment_of (closed "b" "t" 20 30) in
  exists tr tail,
    put_segment b (puts [a] empty) = (Ok tt, [(KStr "t", tr)]) /\
    last_item (segments tr) = Ok tail /\
    is_not_none (TraceSegment.end_time tail) = true /\
    finished tr = true /\
    max_end_date (segments tr) = Some 100000000 /\
    end_date tr = 30000000 /\
    max_end_date (segments tr) <> Some (end_date tr).
Proof.
  intros a b.
  exists (snd (put_in_trace b (get_or_new (KStr "t") (puts [a] empty)))), b.
  repeat split; try reflexivity.
  vm_compute. discriminate.
Qed.

(** A segment whose end time is no number: [finished] is set and the
    conversion of the end time then raises, so the window is not
    written. *)
Example put_segment_bad_end_time :
  let x := segment_of [("id", JStr "x"); ("name", JStr "n");
                       ("trace_id", JStr "t"); ("start_time", JNum 10);
                       ("end_time", JStr "soon")] in
  put_segment x empty =
    (Raise TypeError,
     [(KStr "t", {| start_date := 0; end_date := 0; finished := true;
                    segments := [x] |})]).
Proof. reflexivity. Qed.

(** C1, amended.  When a [put_segment] returns normally, the segment is
    in its trace, and if the last segment of the trace then has an end
    time, the trace is finished, [start_date] is the least start date of
    its segments, and [end_date] is the end date of that last segment,
    which has the greatest start date. *)
Theorem put_segment_closed_tail_window :
  forall (calls : list TraceSegment.t) (segment : TraceSegment.t) (st' : t),
    put_segment segment (puts calls empty) = (Ok tt, st') ->
    exists k tr tail,
      hash_key (TraceSegment.trace_id segment) = Ok k /\
      lookup k st' = Some tr /\
      In segment (segments tr) /\
      last_item (segments tr) = Ok tail /\
      (is_not_none (TraceSegment.end_time tail) = true ->
       finished tr = true /\
       (exists head, In head (segments tr) /\
          TraceSegment.start_date head = Ok (start_date tr)) /\
       (forall s, In s (segments tr) ->
          exists d, TraceSegment.start_date s = Ok d /\ start_date tr <= d) /\
       TraceSegment.end_date tail = Ok (end_date tr) /\
       (forall s, In s (segments tr) ->
          exists d dt, TraceSegment.start_date s = Ok d /\
            TraceSegment.start_date tail = Ok dt /\ d <= dt)).
Proof.
  intros calls segment st' Hput.
  set (st := puts calls empty) in *.
  assert (Hst : store_sorted st) by (apply puts_sorted, empty_sorted).
  destruct (hash_key (TraceSegment.trace_id segment)) as [k|e] eqn:Hk.
  2:{ rewrite (put_segment_unhashable segment e st Hk) in Hput. discriminate. }
  pose proof (put_in_trace_sorted segment _ (get_or_new_sorted k st Hst)) as Hsorted.
  rewrite (put_segment_trace segment k st Hk) in Hput.
  injection Hput as Hr Hs'.
  assert (Hl : lookup k st' = Some (snd (put_in_trace segment (get_or_new k st)))).
  { subst st'. apply (lookup_set k _ (get_or_new k st)). apply lookup_ensure. }
  clear Hs'.
  set (old := get_or_new k st) in *.
  revert Hr Hl Hsorted. unfold put_in_trace.
  destruct (insort_left (segments old) segment) as [segs|e] eqn:Ei; [|simpl; discriminate].
  pose proof (insort_left_in _ _ _ Ei) as Hin.
  destruct (last_item segs) as [tail|e] eqn:Et; [|simpl; discriminate].
  destruct (is_not_none (TraceSegment.end_time tail)) eqn:En.
  2:{ simpl. intros _ Hl _. exists k, (set_segments segs old), tail.
      split; [reflexivity|]. split; [exact Hl|]. simpl.
      split; [exact Hin|]. split; [exact Et|].
      intros Hn. rewrite En in Hn. discriminate. }
  destruct (first_item segs) as [head|e] eqn:Eh; [|simpl; discriminate].
  destruct (TraceSegment.start_date head) as [s|e] eqn:Es; [|simpl; discriminate].
  destruct (TraceSegment.end_date tail) as [e'|e] eqn:Ee; [|simpl; discriminate].
  simpl. intros _ Hl Hsorted.
  exists k, (set_end_date e' (set_start_date s (set_finished true (set_segments segs old)))), tail.
  split; [reflexivity|]. split; [exact Hl|]. simpl.
  split; [exact Hin|]. split; [exact Et|]. intros _.
  assert (Hhead : In head segs).
  { destruct segs; [discriminate|]. simpl in Eh. inversion Eh. left. reflexivity. }
  assert (Hdated : forall y, In y segs -> exists d, TraceSegment.start_date y = Ok d).
  { apply sorted_all_dated; [exact Hsorted|]. exists head, s. auto. }
  pose proof (sorted_strongly _ Hsorted) as Hss.
  split; [reflexivity|]. split; [exists head; auto|]. split.
  - intros y Hy.
    destruct (strongly_sorted_head segs head Hss Eh y Hy) as [->|(dh & dy & Hdh & Hdy & Hle)].
    + exists s. split; [exact Es | lia].
    + rewrite Es in Hdh. inversion Hdh. subst dh. exists dy. auto.
  - split; [exact Ee|].
    intros y Hy. destruct (last_item_app segs tail Et) as [l0 Hl0].
    rewrite Hl0 in Hy, Hss. apply in_app_or in Hy. destruct Hy as [Hy|[<-|[]]].
    + destruct (strongly_sorted_app_last l0 tail Hss y Hy) as (dy & dt & Hdy & Hdt & Hle).
      exists dy, dt. auto.
    + destruct (Hdated tail) as [dt Hdt].
      { rewrite Hl0. apply in_or_app. right. left. reflexivity. }
      exists dt, dt. repeat split; auto. lia.
Qed.

(** The two sample segments again: the window of the trace is from the
    start of the first one to the end of the last one. *)
Lemma put_segment_closed_tail_window_witness :
  let a := segment_of (closed "a" "t" 10 100) in
  let b := segment_of (closed "b" "t" 20 30) in
  exists st',
    put_segment b (puts [a] empty) = (Ok tt, st') /\
    exists tr tail,
      lookup (KStr "t") st' = Some tr /\
      last_item (segments tr) = Ok tail /\
      finished tr = true /\ start_date tr = 10000000 /\ end_date tr = 30000000
      /\ TraceSegment.end_date tail = Ok (end_date tr).
Proof.
  intros a b.
  exists (snd (put_segment b (puts [a] empty))).
  split; [reflexivity|].
  destruct (put_segment_closed_tail_window [a] b
              (snd (put_segment b (puts [a] empty))) eq_refl)
    as (k & tr & tail & Hk & Hl & _ & Ht & Hw).
  inversion Hk. subst k.
  exists tr, tail. split; [exact Hl|]. split; [exact Ht|].
  vm_compute in Hl. injection Hl as Htr. subst tr.
  vm_compute in Ht. injection Ht as Htail. subst tail.
  destruct (Hw eq_refl) as (Hf & _ & _ & He & _).
  split; [exact Hf|]. split; [reflexivity|]. split; [reflexivity | exact He].
Defined.

End PutSegment.

(** ** Seconds of a timedelta *)

Module FloatFacts.

Lemma rne_div_bounds n d :
  0 < d -> n / d <= rne_div n d /\ 2 * d * rne_div n d <= 2 * n + d.
Proof.
  intros Hd. unfold rne_div.
  pose proof (Z.div_mod n d ltac:(lia)) as E.
  pose proof (Z.mod_pos_bound n d Hd) as B.
  set (f := n / d) in *. set (r := n mod d) in *.
  destruct (2 * r <? d) eqn:E1; [apply Z.ltb_lt in E1; nia|].
  apply Z.ltb_ge in E1.
  destruct (d <? 2 * r) eqn:E2; [apply Z.ltb_lt in E2; nia|].
  apply Z.ltb_ge in E2.
  destruct (Z.even f); nia.
Qed.

(** Below [2^34] seconds the [float] has at least 19 bits after the
    point: more than the microseconds need. *)
Lemma float_exponent_small a :
  0 < a -> a < 2 ^ 34 * 1000000 ->
  -1074 <= float_exponent a 1000000 <= -19.
Proof.
  intros Ha Hlt. unfold float_exponent.
  change (Z.log2 1000000) with 19.
  assert (HL : 0 <= Z.log2 a <= 53).
  { split; [apply Z.log2_nonneg|].
    assert (Z.log2 a < 54); [|lia].
    apply Z.log2_lt_pow2; [lia|]. change (2 ^ 54) with 18014398509481984.
    change (2 ^ 34) with 17179869184 in Hlt. lia. }
  set (e0 := Z.log2 a - 19 - 52).
  destruct (Z.eq_dec (Z.log2 a) 53) as [E53|N53].
  - assert (He0 : e0 = -18) by (unfold e0; lia). rewrite He0.
    unfold scaled_num, scaled_den. cbn [Z.leb Z.compare Z.opp].
    assert (Hq : a * 2 ^ 18 / 1000000 < 2 ^ 52).
    { apply Z.div_lt_upper_bound; [lia|].
      change (2 ^ 18) with 262144. change (2 ^ 52) with 4503599627370496.
      change (2 ^ 34) with 17179869184 in Hlt. lia. }
    apply Z.ltb_lt in Hq. rewrite Hq. lia.
  - assert (He0 : -71 <= e0 <= -19) by (unfold e0; lia).
    destruct (_ <? _); lia.
Qed.

(** A [timedelta] shorter than [2^34] seconds: the [float] of its
    seconds lies in the same whole second, and [int] of it is the exact
    quotient, truncated toward zero. *)
Lemma total_seconds_int_exact us :
  Z.abs us < 2 ^ 34 * 1000000 ->
  total_seconds_int us = Z.quot us 1000000.
Proof.
  intros Hlt. unfold total_seconds_int, float_of_ratio.
  destruct (Z.abs us =? 0) eqn:E0.
  - apply Z.eqb_eq in E0. assert (us = 0) by lia. subst. reflexivity.
  - apply Z.eqb_neq in E0.
    assert (Ha : 0 < Z.abs us) by lia.
    pose proof (float_exponent_small _ Ha Hlt) as He.
    set (e := float_exponent (Z.abs us) 1000000) in *.
    unfold int_of_float, scaled_num, scaled_den.
    assert (Hneg : (0 <=? e) = false) by (apply Z.leb_gt; lia).
    rewrite Hneg.
    assert (HP : 2 ^ 19 <= 2 ^ (- e)) by (apply Z.pow_le_mono_r; lia).
    change (2 ^ 19) with 524288 in HP.
    set (P := 2 ^ (- e)) in *.
    set (a := Z.abs us) in *.
    destruct (rne_div_bounds (a * P) 1000000 ltac:(lia)) as [Hlo Hhi].
    set (m := rne_div (a * P) 1000000) in *.
    pose proof (Z.div_mod a 1000000 ltac:(lia)) as Ea.
    pose proof (Z.mod_pos_bound a 1000000 ltac:(lia)) as Ba.
    assert (Hf : a / 1000000 * P <= a * P / 1000000).
    { apply Z.div_le_lower_bound; [lia|]. nia. }
    assert (Hm : m / P = a / 1000000).
    { symmetry. apply Z.div_unique with (r := m - a / 1000000 * P); [|lia].
      left. split; [lia|]. nia. }
    rewrite Hm. rewrite (Z.quot_div us 1000000) by lia.
    change (Z.sgn 1000000) with 1. change (Z.abs 1000000) with 1000000.
    fold a. lia.
Qed.

End FloatFacts.

(** ** summary *)

Module Summary.
Import SegmentCollection Notions Samples.

Lemma summary_loop_filter items start_time end_time acc :
  summary_loop items start_time end_time acc =
    acc ++ map part_of
             (filter (fun kt => in_window start_time end_time (snd kt)) items).
Proof.
  revert acc. induction items as [|[tid tr] items IH]; intros acc; simpl.
  - rewrite app_nil_r. reflexivity.
  - destruct (in_window start_time end_time tr); simpl.
    + rewrite IH, <- app_assoc. reflexivity.
    + apply IH.
Qed.

Lemma in_window_spec start_time end_time tr :
  in_window start_time end_time tr = true <->
  finished tr = true /\ start_time < start_date tr /\ end_date tr < end_time.
Proof.
  unfold in_window. rewrite !andb_true_iff, !Z.ltb_lt. tauto.
Qed.

Lemma summary_not_none start_time end_time filter_expression sampling now st :
  is_not_none filter_expression = true ->
  summary start_time end_time filter_expression sampling now st =
    (Raise (AWSError "Not implemented yet - moto" "InternalFailure" 500), st).
Proof. intros H. unfold summary. rewrite H. reflexivity. Qed.

Lemma summary_none start_time end_time sampling now st :
  summary start_time end_time JNull sampling now st =
    (Ok {| ApproximateTime := total_seconds_int (now - 0);
           TracesProcessedCount :=
             length (summary_loop st start_time end_time []);
           TraceSummaries := summary_loop st start_time end_time [] |}, st).
Proof. reflexivity. Qed.

Lemma summary_ok_inv start_time end_time filter_expression sampling now st res st' :
  summary start_time end_time filter_expression sampling now st = (Ok res, st') ->
  st' = st /\
  TraceSummaries res =
    map part_of (filter (fun kt => in_window start_time end_time (snd kt)) st).
Proof.
  unfold summary. destruct (is_not_none filter_expression).
  - discriminate.
  - unfold bind, items, ret. intros H. inversion H. simpl.
    rewrite summary_loop_filter. auto.
Qed.

(** C3, as stated, fails: with the empty string as filter expression the
    call raises and returns no summaries, although the store holds a
    finished trace whose window lies strictly inside the bounds. *)
Lemma summary_rejects_empty_filter :
  let st := puts [segment_of (closed "a" "t" 100 200)] empty in
  exists tr,
    lookup (KStr "t") st = Some tr /\
    finished tr = true /\
    50000000 < start_date tr /\ end_date tr < 250000000 /\
    forall sampling now res st',
      summary 50000000 250000000 (JStr "") sampling now st <> (Ok res, st').
Proof.
  intros st.
  exists (get_or_new (KStr "t") st).
  split; [reflexivity|]. split; [reflexivity|].
  split; [reflexivity|]. split; [reflexivity|].
  intros sampling now res st'.
  rewrite summary_not_none by reflexivity. discriminate.
Qed.

(** C3, amended.  With no filter expression ([None]) the call returns a
    result, and a trace is summarised in it exactly when it is finished,
    the start bound is strictly before its [start_date] and its
    [end_date] is strictly before the end bound; the summaries are those
    of the traces that pass, in the order of the store. *)
Theorem summary_window_strict :
  forall (st : t) (start_time end_time : Z) (sampling : bool) (now : Z),
    exists res,
      summary start_time end_time JNull sampling now st = (Ok res, st) /\
      TraceSummaries res =
        map part_of
          (filter (fun kt => in_window start_time end_time (snd kt)) st) /\
      TracesProcessedCount res = length (TraceSummaries res) /\
      forall tid,
        In tid (map Id (TraceSummaries res)) <->
        exists tr,
          In (tid, tr) st /\ finished tr = true /\
          start_time < start_date tr /\ end_date tr < end_time.
Proof.
  intros st start_time end_time sampling now.
  eexists. split; [apply summary_none|]. simpl.
  rewrite summary_loop_filter. simpl.
  split; [reflexivity|]. split; [reflexivity|].
  intros tid. rewrite map_map, in_map_iff. split.
  - intros ([k tr] & Hid & Hin). simpl in Hid. subst k.
    apply filter_In in Hin. destruct Hin as [Hin Hw]. simpl in Hw.
    exists tr. split; [exact Hin|]. apply in_window_spec. exact Hw.
  - intros (tr & Hin & Hw). exists (tid, tr). split; [reflexivity|].
    apply filter_In. split; [exact Hin|]. simpl. apply in_window_spec. exact Hw.
Qed.

(** The bounds are exclusive: a finished trace with the window 100 to
    200 is summarised between 50 and 250, and neither between 100 and
    250 nor between 50 and 200. *)
Example summary_bounds_exclusive :
  let st := puts [segment_of (closed "a" "t" 100 200)] empty in
  let ids s e := option_map (fun r => map Id (TraceSummaries r))
                   (match fst (summary s e JNull false 0 st) with
                    | Ok r => Some r | Raise _ => None end) in
  ids 50000000 250000000 = Some [KStr "t"] /\
  ids 100000000 250000000 = Some [] /\
  ids 50000000 200000000 = Some [].
Proof. repeat split. Qed.

(** C6.  A filter expression that is a non-empty string makes [summary]
    raise [AWSError] with the code [InternalFailure] and the status 500;
    no summaries are returned. *)
Theorem summary_filter_unsupported :
  forall (st : t) (start_time end_time : Z) (f : string)
         (sampling : bool) (now : Z),
    f <> EmptyString ->
    summary start_time end_time (JStr f) sampling now st =
      (Raise (AWSError "Not implemented yet - moto" "InternalFailure" 500), st).
Proof.
  intros st start_time end_time f sampling now _.
  apply summary_not_none. reflexivity.
Qed.

Lemma summary_filter_unsupported_witness :
  "service(x)" <> EmptyString /\
  summary 50000000 250000000 (JStr "service(x)") false 0
    (puts [segment_of (closed "a" "t" 100 200)] empty) =
    (Raise (AWSError "Not implemented yet - moto" "InternalFailure" 500),
     puts [segment_of (closed "a" "t" 100 200)] empty).
Proof.
  split; [discriminate|].
  apply (summary_filter_unsupported
           (puts [segment_of (closed "a" "t" 100 200)] empty)
           50000000 250000000 "service(x)" false 0).
  discriminate.
Defined.

(** C8, as stated, fails.  The duration is [int] of a [float]: from
    [2^34] seconds on, a [float] no longer tells the microseconds apart.
    A trace from 0.000001 to 17179869185 seconds lasts 17179869184 whole
    seconds and 999999 microseconds; [total_seconds()] is
    [17179869185.0], and the reported duration is 17179869185, one
    second more than the truncated number of seconds. *)
Lemma summary_duration_beyond_truncation :
  let st := puts [segment_of (closed "a" "t" float_0_000001 17179869185)] empty in
  exists res part tr,
    summary 0 17179869186000000 JNull false 0 st = (Ok res, st) /\
    TraceSummaries res = [part] /\
    In (Id part, tr) st /\
    start_date tr = 1 /\
    end_date tr = 17179869185000000 /\
    Z.quot (end_date tr - start_date tr) 1000000 = 17179869184 /\
    Duration part = 17179869185.
Proof.
  intros st.
  exists (mk_summary_result 0 1 [part_of (KStr "t", get_or_new (KStr "t") st)]),
         (part_of (KStr "t", get_or_new (KStr "t") st)),
         (get_or_new (KStr "t") st).
  vm_compute. repeat split; auto.
Qed.

(** C8, amended.  Every summary of a result is that of a trace of the
    store inside the window, and its [Duration] is [int] of the [float]
    of the seconds between the [start_date] and the [end_date] of the
    trace.  For a trace shorter than [2^34] seconds this is the number
    of whole seconds between them, truncated toward zero: what is cut
    off is less than a second and has the sign of the difference. *)
Theorem summary_duration_truncated :
  forall (st : t) (start_time end_time : Z) (filter_expression : json)
         (sampling : bool) (now : Z) (res : summary_result) (st' : t)
         (part : summary_part),
    summary start_time end_time filter_expression sampling now st = (Ok res, st') ->
    In part (TraceSummaries res) ->
    exists tr,
      In (Id part, tr) st /\
      in_window start_time end_time tr = true /\
      Duration part = total_seconds_int (end_date tr - start_date tr) /\
      (Z.abs (end_date tr - start_date tr) < 2 ^ 34 * 1000000 ->
       Duration part = Z.quot (end_date tr - start_date tr) 1000000 /\
       exists r,
         end_date tr - start_date tr = 1000000 * Duration part + r /\
         Z.abs r < 1000000 /\ 0 <= r * (end_date tr - start_date tr)).
Proof.
  intros st start_time end_time filter_expression sampling now res st' part Hs Hin.
  apply summary_ok_inv in Hs. destruct Hs as [_ Hsum].
  rewrite Hsum in Hin. apply in_map_iff in Hin.
  destruct Hin as ([k tr] & Hpart & Hin). subst part.
  apply filter_In in Hin. destruct Hin as [Hin Hw]. simpl in Hw.
  exists tr. unfold part_of, make_summary_part.
  cbn [Duration Id fst snd].
  split; [exact Hin|]. split; [exact Hw|]. split; [reflexivity|].
  intros Hlt. rewrite (FloatFacts.total_seconds_int_exact _ Hlt).
  split; [reflexivity|].
  set (d := end_date tr - start_date tr).
  exists (Z.rem d 1000000). split.
  - apply Z.quot_rem'.
  - split.
    + apply Z.rem_bound_abs. lia.
    + apply Z.rem_sign_mul. lia.
Qed.

(** A trace from 100 to 163.9 seconds has the duration 63. *)
Lemma summary_duration_truncated_witness :
  let st := puts [segment_of (closed "a" "t" 100 float_163_9)] empty in
  exists res part,
    summary 50000000 250000000 JNull false 0 st = (Ok res, st) /\
    TraceSummaries res = [part] /\
    Duration part = 63.
Proof.
  intros st.
  exists (mk_summary_result 0 1 [part_of (KStr "t", get_or_new (KStr "t") st)]),
         (part_of (KStr "t", get_or_new (KStr "t") st)).
  split; [reflexivity|]. split; [reflexivity|].
  destruct (summary_duration_truncated st 50000000 250000000 JNull false 0
              (mk_summary_result 0 1 [part_of (KStr "t", get_or_new (KStr "t") st)])
              st (part_of (KStr "t", get_or_new (KStr "t") st))
              eq_refl (or_introl eq_refl))
    as (tr & Hin & _ & _ & Hd).
  vm_compute in Hin.
  destruct Hin as [Hin|[]]. injection Hin as Htr. subst tr.
  destruct (Hd ltac:(vm_compute; reflexivity)) as [Hq _].
  rewrite Hq. vm_compute. reflexivity.
Defined.

(** C10.  A [summary] that returns a result leaves the store as it was:
    the same traces, each with the same segments, [finished] flag and
    window. *)
Theorem summary_leaves_store :
  forall (st : t) (start_time end_time : Z) (filter_expression : json)
         (sampling : bool) (now : Z) (res : summary_result) (st' : t),
    summary start_time end_time filter_expression sampling now st = (Ok res, st') ->
    st' = st.
Proof.
  intros st start_time end_time filter_expression sampling now res st' Hs.
  apply summary_ok_inv in Hs. tauto.
Qed.

Lemma summary_leaves_store_witness :
  let st := puts [segment_of (closed "a" "t" 100 200);
                  segment_of (open "b" "u" 120)] empty in
  exists res st',
    summary 50000000 250000000 JNull false 0 st = (Ok res, st') /\ st' = st.
Proof.
  intros st.
  exists (mk_summary_result 0 1 [part_of (KStr "t", get_or_new (KStr "t") st)]),
         (snd (summary 50000000 250000000 JNull false 0 st)).
  split; [reflexivity|].
  apply (summary_leaves_store st 50000000 250000000 JNull false 0
           (mk_summary_result 0 1 [part_of (KStr "t", get_or_new (KStr "t") st)])).
  reflexivity.
Defined.

End Summary.

(** ** from_dict *)

Module Parsing.
Import Samples.

Lemma dict_has_set_other k k' v d :
  k <> k' -> dict_has k (dict_set k' v d) = dict_has k d.
Proof.
  intros Hne. unfold dict_has.
  induction d as [|[k2 v2] d IH]; simpl.
  - destruct (String.eqb_spec k' k); [congruence | reflexivity].
  - destruct (String.eqb_spec k2 k') as [->|Hn]; simpl.
    + reflexivity.
    + rewrite IH. reflexivity.
Qed.

Lemma dict_get_set_other k k' v d :
  k <> k' -> dict_get k (dict_set k' v d) = dict_get k d.
Proof.
  intros Hne. induction d as [|[k2 v2] d IH]; simpl.
  - destruct (String.eqb_spec k' k); [congruence | reflexivity].
  - destruct (String.eqb_spec k2 k') as [->|Hn]; simpl.
    + destruct (String.eqb_spec k' k); [congruence | reflexivity].
    + rewrite IH. reflexivity.
Qed.

Lemma dict_has_get k d :
  dict_has k d = match dict_get k d with Some _ => true | None => false end.
Proof.
  unfold dict_has. induction d as [|[k2 v2] d IH]; simpl; [reflexivity|].
  destruct (String.eqb k2 k); [reflexivity | exact IH].
Qed.

Lemma eq_str_true v s : eq_str v s = true <-> v = JStr s.
Proof.
  destruct v; simpl; try (split; [discriminate | intros H; inversion H]).
  rewrite String.eqb_eq. split; [intros ->; reflexivity | intros H; inversion H; auto].
Qed.

(** [from_dict] on a dictionary without [id]. *)
Lemma from_dict_no_id d :
  dict_has "id" d = false ->
  TraceSegment.from_dict (JObj d) =
    Raise (BadSegmentException JNull "MissingParam" TraceSegment.missing_segment_id).
Proof. intros H. simpl. unfold TraceSegment.from_dict_obj. rewrite H. reflexivity. Qed.

(** [from_dict] on a dictionary with [id] that lacks one of the three
    other mandatory fields. *)
Lemma from_dict_missing_arg d seg_id :
  dict_get "id" d = Some seg_id ->
  dict_has "name" d = false \/ dict_has "trace_id" d = false
    \/ dict_has "start_time" d = false ->
  TraceSegment.from_dict (JObj d) =
    Raise (BadSegmentException seg_id "MissingParam" TraceSegment.missing_segment_id).
Proof.
  intros Hid Hm. simpl. unfold TraceSegment.from_dict_obj.
  rewrite dict_has_get, Hid. cbn [negb].
  unfold dict_get_default. rewrite Hid.
  cbn [TraceSegment.check_args].
  rewrite !dict_has_set_other by discriminate.
  destruct (dict_has "name" d); cbn [negb]; [|reflexivity].
  destruct (dict_has "trace_id" d); cbn [negb]; [|reflexivity].
  destruct (dict_has "start_time" d); cbn [negb]; [|reflexivity].
  destruct Hm as [H|[H|H]]; discriminate.
Qed.

(** [from_dict] on a dictionary with the four mandatory fields. *)
Lemma from_dict_mandatory_present d seg_id :
  dict_get "id" d = Some seg_id ->
  dict_has "name" d = true -> dict_has "trace_id" d = true ->
  dict_has "start_time" d = true ->
  TraceSegment.from_dict (JObj d) =
    if negb (dict_has "end_time" d) && negb (dict_has "in_progress" d)
    then Raise (BadSegmentException seg_id "MissingParam"
                  (Lit "Missing end_time or in_progress"))
    else if negb (dict_has "end_time" d)
            && eq_str (dict_get_default "in_progress" JNull d) "false"
    then Raise (BadSegmentException seg_id "MissingParam" (Lit "Missing end_time"))
    else TraceSegment.init (dict_set "segment_id" seg_id d).
Proof.
  intros Hid Hn Ht Hs. simpl. unfold TraceSegment.from_dict_obj.
  rewrite dict_has_get, Hid. cbn [negb].
  unfold dict_get_default. rewrite Hid.
  cbn [TraceSegment.check_args].
  rewrite !dict_has_set_other by discriminate.
  rewrite Hn, Ht, Hs. cbn [negb].
  rewrite dict_get_set_other by discriminate. reflexivity.
Qed.

Lemma init_not_bad_segment d i c m :
  TraceSegment.init d <> Raise (BadSegmentException i c m).
Proof.
  unfold TraceSegment.init.
  destruct (dict_has "self" d || _); [discriminate|].
  destruct (dict_get "name" d); [|discriminate].
  destruct (dict_get "segment_id" d); [|discriminate].
  destruct (dict_get "trace_id" d); [|discriminate].
  destruct (dict_get "start_time" d); discriminate.
Qed.

(** C5, as stated, fails, however a missing-end-time rejection is told
    apart.  By its message: the document with [id] and [in_progress] equal
    to the string [false] only has no [end_time], and is rejected for the
    missing [name] first.  By its code and segment id: the document with
    [id] only is rejected with [MissingParam] and its id, and has no
    [in_progress] at all. *)
Lemma missing_name_goes_first :
  let d := [("id", JStr "a"); ("in_progress", JStr "false")] in
  let d' := [("id", JStr "a")] in
  (dict_has "id" d = true /\ dict_has "end_time" d = false /\
   dict_get "in_progress" d = Some (JStr "false") /\
   TraceSegment.from_dict (JObj d) =
     Raise (BadSegmentException (JStr "a") "MissingParam" (Lit "Missing segment ID")) /\
   TraceSegment.from_dict (JObj d) <>
     Raise (BadSegmentException (JStr "a") "MissingParam" (Lit "Missing end_time"))) /\
  (dict_has "id" d' = true /\ dict_get "in_progress" d' = None /\
   TraceSegment.from_dict (JObj d') =
     Raise (BadSegmentException (JStr "a") "MissingParam" (Lit "Missing segment ID"))).
Proof.
  intros d d'. repeat split; try reflexivity.
  vm_compute. discriminate.
Qed.

(** C5, amended.  For a document with [id], [name], [trace_id] and
    [start_time], [from_dict] raises the rejection with the code
    [MissingParam], the message [Missing end_time] and the segment id
    exactly when [end_time] is absent and [in_progress] is the string
    [false]; with [end_time] absent and [in_progress] the boolean false
    it raises no rejection. *)
Theorem missing_end_time_rejected :
  forall (d : dict) (seg_id : json),
    dict_get "id" d = Some seg_id ->
    dict_has "name" d = true -> dict_has "trace_id" d = true ->
    dict_has "start_time" d = true ->
    (TraceSegment.from_dict (JObj d) =
       Raise (BadSegmentException seg_id "MissingParam" (Lit "Missing end_time"))
     <-> dict_has "end_time" d = false /\
         dict_get "in_progress" d = Some (JStr "false")) /\
    (dict_has "end_time" d = false ->
     dict_get "in_progress" d = Some (JBool false) ->
     forall i c m,
       TraceSegment.from_dict (JObj d) <> Raise (BadSegmentException i c m)).
Proof.
  intros d seg_id Hid Hn Ht Hs.
  rewrite (from_dict_mandatory_present d seg_id Hid Hn Ht Hs).
  rewrite (dict_has_get "in_progress" d). unfold dict_get_default.
  split.
  - split.
    + destruct (dict_has "end_time" d); cbn [negb andb].
      * intros H. exfalso. exact (init_not_bad_segment _ _ _ _ H).
      * destruct (dict_get "in_progress" d) as [v|]; cbn [negb].
        -- destruct (eq_str v "false") eqn:Ev.
           ++ intros _. apply eq_str_true in Ev. subst v. auto.
           ++ intros H. exfalso. exact (init_not_bad_segment _ _ _ _ H).
        -- intros H. inversion H.
    + intros [He Hp]. rewrite He, Hp. reflexivity.
  - intros He Hp i c m. rewrite He, Hp. cbn [negb andb eq_str].
    apply init_not_bad_segment.
Qed.

Lemma missing_end_time_rejected_witness :
  let d := [("id", JStr "a"); ("name", JStr "n"); ("trace_id", JStr "t");
            ("start_time", JNum 10); ("in_progress", JStr "false")] in
  let d' := [("id", JStr "a"); ("name", JStr "n"); ("trace_id", JStr "t");
             ("start_time", JNum 10); ("in_progress", JBool false)] in
  TraceSegment.from_dict (JObj d) =
    Raise (BadSegmentException (JStr "a") "MissingParam" (Lit "Missing end_time")) /\
  TraceSegment.from_dict (JObj d') <>
    Raise (BadSegmentException (JStr "a") "MissingParam" (Lit "Missing end_time")).
Proof.
  intros d d'. split.
  - apply (missing_end_time_rejected d (JStr "a") eq_refl eq_refl eq_refl eq_refl).
    split; reflexivity.
  - apply (missing_end_time_rejected d' (JStr "a") eq_refl eq_refl eq_refl eq_refl);
      reflexivity.
Defined.

(** C9, as stated, fails.  A raw document need not be an object: the
    texts [5], [null], ["valid"] and [["id"]] are well-formed JSON
    without an [id] field, and on each of them [from_dict] raises a
    [TypeError], not a rejection; [process_segment] lets it through. *)
Lemma document_without_fields_raises_type_error :
  sample_loads "5" = Some (JNum 5) /\
  XRayBackend.process_segment sample_loads "5" SegmentCollection.empty =
    (Raise TypeError, SegmentCollection.empty) /\
  TraceSegment.from_dict (JNum 5) = Raise TypeError /\
  TraceSegment.from_dict JNull = Raise TypeError /\
  TraceSegment.from_dict (JStr "valid") = Raise TypeError /\
  TraceSegment.from_dict (JArr [JStr "id"]) = Raise TypeError.
Proof.
  repeat split; reflexivity.
Qed.

(** C9, amended.  A document that decodes to a dictionary without [id]
    is rejected with the code [MissingParam] and no segment id; one with
    [id] that lacks [name], [trace_id] or [start_time] is rejected with
    [MissingParam] and the value of [id].  The store is not touched. *)
Theorem missing_field_rejected :
  forall (json_loads : string -> option json) (doc : string) (d : dict)
         (st : SegmentCollection.t),
    json_loads doc = Some (JObj d) ->
    (dict_has "id" d = false ->
     XRayBackend.process_segment json_loads doc st =
       (Raise (BadSegmentException JNull "MissingParam" (Lit "Missing segment ID")),
        st)) /\
    (forall seg_id,
       dict_get "id" d = Some seg_id ->
       dict_has "name" d = false \/ dict_has "trace_id" d = false
         \/ dict_has "start_time" d = false ->
       XRayBackend.process_segment json_loads doc st =
         (Raise (BadSegmentException seg_id "MissingParam" (Lit "Missing segment ID")),
          st)).
Proof.
  intros json_loads doc d st Hload. split.
  - intros Hid. unfold XRayBackend.process_segment.
    rewrite Hload, (from_dict_no_id d Hid). reflexivity.
  - intros seg_id Hid Hm. unfold XRayBackend.process_segment.
    rewrite Hload, (from_dict_missing_arg d seg_id Hid Hm). reflexivity.
Qed.

(** The document [{"id":"abc"}] is rejected with [MissingParam] and the
    segment id [abc]. *)
Lemma missing_field_rejected_witness :
  sample_loads doc_abc = Some (JObj [("id", JStr "abc")]) /\
  XRayBackend.process_segment sample_loads doc_abc SegmentCollection.empty =
    (Raise (BadSegmentException (JStr "abc") "MissingParam" (Lit "Missing segment ID")),
     SegmentCollection.empty).
Proof.
  split; [reflexivity|].
  apply (missing_field_rejected sample_loads doc_abc
           [("id", JStr "abc")] SegmentCollection.empty eq_refl).
  - reflexivity.
  - left. reflexivity.
Defined.

End Parsing.

(** ** trace_segments *)

Module Ingestion.
Import SegmentCollection Notions Samples XRayResponse.






(** A batch of three documents whose second one is malformed: the first
    and the third are stored, and one record with the code
    [JSONFormatError] is returned. *)
Example batch_partial_failure :
  let docs := [doc_closed "s1" "t1" "100" "200"; "{";
               doc_closed "s3" "t3" "300" "400"] in
  exists st',
    trace_segments sample_loads (Some docs) empty =
      (Ok (UnprocessedTraceSegments
             [mk_rejection JNull "JSONFormatError" (Lit "Bad JSON data")]), st') /\
    lookup (KStr "t1") st' <> None /\
    lookup (KStr "t3") st' <> None.
Proof.
  intros docs.
  exists (snd (trace_segments sample_loads (Some docs) empty)).
  split; [reflexivity|]. split; vm_compute; discriminate.
Qed.

End Ingestion.

(** * Further properties *)

(** ** put_segment: what a call changes and what it keeps *)

Module PutEffects.
Import SegmentCollection Notions StoreFacts PutFacts BisectFacts OrderFacts.
Import Samples.

Lemma list_insert_perm i x a : Permutation (x :: a) (list_insert i x a).
Proof.
  unfold list_insert. rewrite <- (firstn_skipn i a) at 1.
  apply Permutation_middle.
Qed.

Lemma insort_left_perm a x l' :
  insort_left a x = Ok l' -> Permutation (x :: a) l'.
Proof.
  unfold insort_left. destruct (bisect_left a x) as [i|e]; [|discriminate].
  intros H. inversion H. apply list_insert_perm.
Qed.

Lemma insort_left_last a x l' :
  insort_left a x = Ok l' -> exists tail, last_item l' = Ok tail.
Proof.
  intros H. apply insort_left_perm in H.
  unfold last_item. destruct (rev l') as [|t r] eqn:E; [|eauto].
  apply (f_equal (@rev _)) in E. rewrite rev_involutive in E. simpl in E. subst l'.
  apply Permutation_sym, Permutation_nil in H. discriminate.
Qed.

Lemma insort_left_first a x l' :
  insort_left a x = Ok l' -> exists head, first_item l' = Ok head.
Proof.
  intros H. apply insort_left_perm in H.
  destruct l' as [|h l']; [|simpl; eauto].
  apply Permutation_sym, Permutation_nil in H. discriminate.
Qed.

(** No comparison is made on an empty list. *)
Lemma insort_left_nil x : insort_left [] x = Ok [x].
Proof. reflexivity. Qed.

(** The four ways through [put_segment], on the trace of the segment. *)
Lemma put_in_trace_cases segment old :
  (exists e,
     insort_left (segments old) segment = Raise e /\
     put_in_trace segment old = (Raise e, old)) \/
  (exists segs tail,
     insort_left (segments old) segment = Ok segs /\
     last_item segs = Ok tail /\
     TraceSegment.end_time tail = JNull /\
     put_in_trace segment old = (Ok tt, set_segments segs old)) \/
  (exists segs tail e,
     insort_left (segments old) segment = Ok segs /\
     last_item segs = Ok tail /\
     is_not_none (TraceSegment.end_time tail) = true /\
     put_in_trace segment old =
       (Raise e, set_finished true (set_segments segs old))) \/
  (exists segs head tail s e',
     insort_left (segments old) segment = Ok segs /\
     first_item segs = Ok head /\ last_item segs = Ok tail /\
     is_not_none (TraceSegment.end_time tail) = true /\
     TraceSegment.start_date head = Ok s /\
     TraceSegment.end_date tail = Ok e' /\
     put_in_trace segment old =
       (Ok tt, set_end_date e' (set_start_date s
                 (set_finished true (set_segments segs old))))).
Proof.
  unfold put_in_trace.
  destruct (insort_left (segments old) segment) as [segs|e] eqn:Ei.
  2:{ left. eauto. }
  right.
  destruct (insort_left_last _ _ _ Ei) as [tail Et].
  destruct (insort_left_first _ _ _ Ei) as [head Eh].
  rewrite Et, Eh.
  destruct (is_not_none (TraceSegment.end_time tail)) eqn:En.
  2:{ left. exists segs, tail. repeat split; auto.
      destruct (TraceSegment.end_time tail); try discriminate. reflexivity. }
  right.
  destruct (TraceSegment.start_date head) as [s|e] eqn:Es.
  2:{ left. exists segs, tail, e. auto. }
  destruct (TraceSegment.end_date tail) as [e'|e] eqn:Ee.
  2:{ left. exists segs, tail, e. auto. }
  right. exists segs, head, tail, s, e'. repeat split; auto.
Qed.

(** The trace of the segment after the call, in any store. *)
Lemma lookup_put_same segment k st :
  hash_key (TraceSegment.trace_id segment) = Ok k ->
  lookup k (snd (put_segment segment st)) =
    Some (snd (put_in_trace segment (get_or_new k st))).
Proof.
  intros Hk. rewrite (lookup_put segment k st k Hk), key_eqb_refl. reflexivity.
Qed.

Lemma put_segment_result segment k st :
  hash_key (TraceSegment.trace_id segment) = Ok k ->
  fst (put_segment segment st) = fst (put_in_trace segment (get_or_new k st)).
Proof. intros Hk. rewrite (put_segment_trace segment k st Hk). reflexivity. Qed.

(** X1.  A [put_segment] leaves every trace other than that of its
    segment as it was, whether it returns or raises. *)
Theorem put_segment_other_traces :
  forall (st : t) (segment : TraceSegment.t) (k' : key),
    (forall k, hash_key (TraceSegment.trace_id segment) = Ok k -> k <> k') ->
    lookup k' (snd (put_segment segment st)) = lookup k' st.
Proof.
  intros st segment k' Hne.
  destruct (hash_key (TraceSegment.trace_id segment)) as [k|e] eqn:Hk.
  - rewrite (lookup_put segment k st k' Hk).
    rewrite key_eqb_neq by (apply Hne; reflexivity). reflexivity.
  - rewrite (put_segment_unhashable segment e st Hk). reflexivity.
Qed.

Lemma put_segment_other_traces_witness :
  let a := segment_of (closed "a" "t" 10 100) in
  let b := segment_of (closed "b" "u" 20 30) in
  lookup (KStr "t") (snd (put_segment b (puts [a] empty)))
    = lookup (KStr "t") (puts [a] empty).
Proof.
  intros a b.
  apply (put_segment_other_traces (puts [a] empty) b (KStr "t")).
  intros k Hk. vm_compute in Hk. inversion Hk. discriminate.
Defined.

(** X2.  A [put_segment] that returns normally has added its segment to
    its trace and nothing else: the segments of the trace are those it had
    (none for a trace that did not exist) and the new one, each once. *)
Theorem put_segment_adds_one :
  forall (st st' : t) (segment : TraceSegment.t),
    put_segment segment st = (Ok tt, st') ->
    exists k tr',
      hash_key (TraceSegment.trace_id segment) = Ok k /\
      lookup k st' = Some tr' /\
      Permutation (segment :: segments (get_or_new k st)) (segments tr') /\
      length (segments tr') = S (length (segments (get_or_new k st))).
Proof.
  intros st st' segment Hput.
  destruct (hash_key (TraceSegment.trace_id segment)) as [k|e] eqn:Hk.
  2:{ rewrite (put_segment_unhashable segment e st Hk) in Hput. discriminate. }
  pose proof (lookup_put_same segment k st Hk) as Hl.
  pose proof (put_segment_result segment k st Hk) as Hr.
  rewrite Hput in Hl, Hr. simpl in Hl, Hr.
  exists k, (snd (put_in_trace segment (get_or_new k st))).
  split; [reflexivity|]. split; [exact Hl|].
  assert (Hp : Permutation (segment :: segments (get_or_new k st))
                 (segments (snd (put_in_trace segment (get_or_new k st))))).
  { rewrite put_in_trace_segments.
    destruct (insort_left (segments (get_or_new k st)) segment) as [segs|e] eqn:Ei.
    - apply insort_left_perm. exact Ei.
    - exfalso. unfold put_in_trace in Hr. rewrite Ei in Hr. discriminate. }
  split; [exact Hp|].
  apply Permutation_length in Hp. simpl in Hp. symmetry. exact Hp.
Qed.

Lemma put_segment_adds_one_witness :
  let a := segment_of (closed "a" "t" 10 100) in
  let b := segment_of (closed "b" "t" 5 30) in
  exists tr',
    lookup (KStr "t") (snd (put_segment b (puts [a] empty))) = Some tr' /\
    length (segments tr') = 2%nat.
Proof.
  intros a b.
  destruct (put_segment_adds_one (puts [a] empty)
              (snd (put_segment b (puts [a] empty))) b eq_refl)
    as (k & tr' & Hk & Hl & _ & Hlen).
  vm_compute in Hk. injection Hk as <-.
  exists tr'. split; [exact Hl | exact Hlen].
Defined.

(** A comparison that raises found a trace that was there. *)
Lemma insort_raise_present segment k st e :
  insort_left (segments (get_or_new k st)) segment = Raise e ->
  lookup k st = Some (get_or_new k st).
Proof.
  unfold get_or_new. destruct (lookup k st) as [tr|]; [reflexivity|].
  simpl. discriminate.
Qed.

Lemma ensure_present k st tr : lookup k st = Some tr -> ensure k st = st.
Proof. intros H. unfold ensure. rewrite H. reflexivity. Qed.

Lemma set_app_absent k v w st :
  lookup k st = None -> set k v (st ++ [(k, w)]) = st ++ [(k, v)].
Proof.
  unfold set. induction st as [|[k' tr] st IH]; simpl.
  - rewrite key_eqb_refl. reflexivity.
  - destruct (key_eqb k' k); [discriminate|].
    intros H. rewrite (IH H). reflexivity.
Qed.

(** X3.  A [put_segment] that raises has either changed nothing (the
    trace id is not hashable, or a comparison of start dates raised), or
    it raised while converting a time after the insertion: then the
    segment is in its trace, the last segment has an end time, the trace
    is marked finished, and its window is the one it had. *)
Theorem put_segment_raise_effect :
  forall (st st' : t) (segment : TraceSegment.t) (e : exn),
    put_segment segment st = (Raise e, st') ->
    st' = st \/
    exists k tr' tail,
      hash_key (TraceSegment.trace_id segment) = Ok k /\
      lookup k st' = Some tr' /\
      In segment (segments tr') /\
      last_item (segments tr') = Ok tail /\
      is_not_none (TraceSegment.end_time tail) = true /\
      finished tr' = true /\
      start_date tr' = start_date (get_or_new k st) /\
      end_date tr' = end_date (get_or_new k st).
Proof.
  intros st st' segment e Hput.
  destruct (hash_key (TraceSegment.trace_id segment)) as [k|e0] eqn:Hk.
  2:{ rewrite (put_segment_unhashable segment e0 st Hk) in Hput.
      left. inversion Hput. reflexivity. }
  pose proof (lookup_put_same segment k st Hk) as Hl.
  rewrite Hput in Hl. simpl snd in Hl.
  rewrite (put_segment_trace segment k st Hk) in Hput.
  injection Hput as Hr Hst.
  set (old := get_or_new k st) in *.
  destruct (put_in_trace_cases segment old)
    as [(e1 & Hi & Hp)|[(segs & tail & Hi & Ht & Hn & Hp)
       |[(segs & tail & e1 & Hi & Ht & Hn & Hp)
        |(segs & head & tail & s & e' & Hi & Hh & Ht & Hn & Hs & He & Hp)]]];
    rewrite Hp in Hr, Hst, Hl; simpl in Hr, Hst, Hl.
  - left. subst st'.
    pose proof (insort_raise_present segment k st e1 Hi) as Hpres.
    rewrite (ensure_present k st _ Hpres). apply set_same. exact Hpres.
  - discriminate.
  - right. exists k, (set_finished true (set_segments segs old)), tail.
    repeat split; auto. simpl. eapply PutSegment.insort_left_in. exact Hi.
  - discriminate.
Qed.

(** A segment whose end time is no number, put into an empty store. *)
Lemma put_segment_raise_effect_witness :
  let x := segment_of [("id", JStr "x"); ("name", JStr "n");
                       ("trace_id", JStr "t"); ("start_time", JNum 10);
                       ("end_time", JStr "soon")] in
  let st' := snd (put_segment x empty) in
  st' = empty \/
  exists k tr' tail,
    hash_key (TraceSegment.trace_id x) = Ok k /\
    lookup k st' = Some tr' /\
    In x (segments tr') /\
    last_item (segments tr') = Ok tail /\
    is_not_none (TraceSegment.end_time tail) = true /\
    finished tr' = true /\
    start_date tr' = start_date (get_or_new k empty) /\
    end_date tr' = end_date (get_or_new k empty).
Proof.
  intros x st'.
  apply (put_segment_raise_effect empty st' x TypeError). reflexivity.
Defined.

End PutEffects.

(** ** Stores built by put_segment alone *)

Module StoreInvariants.
Import SegmentCollection Notions StoreFacts PutFacts BisectFacts OrderFacts.
Import PutEffects Samples.

Lemma puts_cons c calls st :
  puts (c :: calls) st = puts calls (snd (put_segment c st)).
Proof. reflexivity. Qed.

(** What holds of a new trace item and is kept by [put_segment] on a trace
    holds of every trace of a store built from the empty one. *)
Lemma trace_invariant (Q : trace -> Prop) :
  Q _new_trace_item ->
  (forall segment old, Q old -> Q (snd (put_in_trace segment old))) ->
  forall calls k tr, lookup k (puts calls empty) = Some tr -> Q tr.
Proof.
  intros Hnew Hstep calls.
  assert (H : forall st, (forall k tr, lookup k st = Some tr -> Q tr) ->
                forall k tr, lookup k (puts calls st) = Some tr -> Q tr).
  { induction calls as [|c calls IH]; intros st Hst; [exact Hst|].
    rewrite puts_cons. apply IH. intros k tr.
    destruct (hash_key (TraceSegment.trace_id c)) as [k0|e] eqn:Hk.
    - rewrite (lookup_put c k0 st k Hk). destruct (key_eqb k0 k).
      + intros H. inversion H. apply Hstep.
        unfold get_or_new. destruct (lookup k0 st) as [tr0|] eqn:E; [|exact Hnew].
        apply (Hst k0 tr0 E).
      + apply Hst.
    - rewrite (put_segment_unhashable c e st Hk). apply Hst. }
  apply H. intros k tr Hl. discriminate.
Qed.

Lemma put_in_trace_grows segment old :
  (forall s, In s (segments old) ->
     In s (segments (snd (put_in_trace segment old)))) /\
  (finished old = true -> finished (snd (put_in_trace segment old)) = true).
Proof.
  split.
  - intros s Hs. rewrite put_in_trace_segments.
    destruct (insort_left (segments old) segment) as [segs|e] eqn:Ei; [|exact Hs].
    apply insort_left_perm in Ei.
    apply (Permutation_in s Ei). right. exact Hs.
  - destruct (put_in_trace_cases segment old)
      as [(e1 & _ & Hp)|[(segs & tail & _ & _ & _ & Hp)
         |[(segs & tail & e1 & _ & _ & _ & Hp)
          |(segs & head & tail & s & e' & _ & _ & _ & _ & _ & _ & Hp)]]];
      rewrite Hp; simpl; auto.
Qed.

Lemma put_segment_grows segment st k tr :
  lookup k st = Some tr ->
  exists tr',
    lookup k (snd (put_segment segment st)) = Some tr' /\
    (forall s, In s (segments tr) -> In s (segments tr')) /\
    (finished tr = true -> finished tr' = true).
Proof.
  intros Hl.
  destruct (hash_key (TraceSegment.trace_id segment)) as [k0|e] eqn:Hk.
  - rewrite (lookup_put segment k0 st k Hk).
    destruct (key_eqb k0 k) eqn:E.
    + apply key_eqb_eq in E. subst k0.
      assert (Hold : get_or_new k st = tr) by (unfold get_or_new; rewrite Hl; reflexivity).
      rewrite Hold. eexists. split; [reflexivity|]. apply put_in_trace_grows.
    + exists tr. auto.
  - rewrite (put_segment_unhashable segment e st Hk). exists tr. auto.
Qed.

Lemma put_segment_grows_many calls st k tr :
  lookup k st = Some tr ->
  exists tr',
    lookup k (puts calls st) = Some tr' /\
    (forall s, In s (segments tr) -> In s (segments tr')).
Proof.
  revert st tr. induction calls as [|c calls IH]; intros st tr Hl.
  - exists tr. auto.
  - rewrite puts_cons.
    destruct (put_segment_grows c st k tr Hl) as (tr1 & Hl1 & Hin1 & _).
    destruct (IH _ tr1 Hl1) as (tr' & Hl' & Hin').
    exists tr'. split; [exact Hl'|]. auto.
Qed.

(** X4.  The store only grows: through any further sequence of
    [put_segment] calls a trace stays in the store with all the segments
    it had, and a finished trace stays finished. *)
Theorem puts_only_grow :
  forall (calls : list TraceSegment.t) (st : t) (k : key) (tr : trace),
    lookup k st = Some tr ->
    exists tr',
      lookup k (puts calls st) = Some tr' /\
      (forall s, In s (segments tr) -> In s (segments tr')) /\
      (finished tr = true -> finished tr' = true).
Proof.
  induction calls as [|c calls IH]; intros st k tr Hl.
  - exists tr. auto.
  - rewrite puts_cons.
    destruct (put_segment_grows c st k tr Hl) as (tr1 & Hl1 & Hin1 & Hf1).
    destruct (IH _ k tr1 Hl1) as (tr' & Hl' & Hin' & Hf').
    exists tr'. split; [exact Hl'|]. split; auto.
Qed.

Lemma puts_only_grow_witness :
  let a := segment_of (closed "a" "t" 10 100) in
  let c := segment_of (open "c" "t" 20) in
  let d := segment_of (open "d" "u" 5) in
  exists tr',
    lookup (KStr "t") (puts [c; d] (puts [a] empty)) = Some tr' /\
    In a (segments tr') /\ finished tr' = true.
Proof.
  intros a c d.
  destruct (puts_only_grow [c; d] (puts [a] empty) (KStr "t")
              (get_or_new (KStr "t") (puts [a] empty)) eq_refl)
    as (tr' & Hl & Hin & Hf).
  exists tr'. split; [exact Hl|]. split.
  - apply Hin. left. reflexivity.
  - apply Hf. reflexivity.
Defined.

Lemma closed_tail_finished_inv calls k tr tail :
  lookup k (puts calls empty) = Some tr ->
  last_item (segments tr) = Ok tail ->
  is_not_none (TraceSegment.end_time tail) = true ->
  finished tr = true.
Proof.
  intros Hl. revert tail.
  apply (trace_invariant
           (fun tr => forall tail, last_item (segments tr) = Ok tail ->
              is_not_none (TraceSegment.end_time tail) = true ->
              finished tr = true)) with (calls := calls) (k := k); [| |exact Hl].
  - intros tail H. discriminate.
  - clear. intros segment old IH tail.
    destruct (put_in_trace_cases segment old)
      as [(e1 & _ & Hp)|[(segs & tail' & _ & Ht & Hn & Hp)
         |[(segs & tail' & e1 & _ & _ & _ & Hp)
          |(segs & head & tail' & s & e' & _ & _ & _ & _ & _ & _ & Hp)]]];
      rewrite Hp; simpl.
    + apply IH.
    + intros Ht' Hn'. rewrite Ht in Ht'. inversion Ht'. subst tail'.
      rewrite Hn in Hn'. discriminate.
    + reflexivity.
    + reflexivity.
Qed.

(** X5.  In a store built from the empty one by [put_segment] calls, a
    trace whose last segment has an end time is marked finished. *)
Theorem closed_tail_is_finished :
  forall (calls : list TraceSegment.t) (k : key) (tr : trace)
         (tail : TraceSegment.t),
    lookup k (puts calls empty) = Some tr ->
    last_item (segments tr) = Ok tail ->
    is_not_none (TraceSegment.end_time tail) = true ->
    finished tr = true.
Proof.
  intros calls k tr tail. apply closed_tail_finished_inv.
Qed.

Lemma closed_tail_is_finished_witness :
  let a := segment_of (open "a" "t" 10) in
  let b := segment_of (closed "b" "t" 30 40) in
  let c := segment_of (open "c" "t" 20) in
  exists tr,
    lookup (KStr "t") (puts [b; a; c] empty) = Some tr /\
    segments tr = [a; c; b] /\ finished tr = true.
Proof.
  intros a b c.
  exists (get_or_new (KStr "t") (puts [b; a; c] empty)).
  split; [reflexivity|]. split; [reflexivity|].
  apply (closed_tail_is_finished [b; a; c] (KStr "t") _ b); reflexivity.
Defined.

(** X6.  Whatever the order of the calls: if, in a trace of a store built
    from the empty one, every segment that no other segment starts after
    has an end time, the trace is finished. *)
Theorem latest_closed_is_finished :
  forall (calls : list TraceSegment.t) (k : key) (tr : trace),
    lookup k (puts calls empty) = Some tr ->
    segments tr <> [] ->
    (forall s, In s (segments tr) ->
       (forall s', In s' (segments tr) -> s' = s \/ start_le s' s) ->
       is_not_none (TraceSegment.end_time s) = true) ->
    finished tr = true.
Proof.
  intros calls k tr Hl Hne Hlatest.
  assert (Hsorted : sorted_by_start (segments tr)).
  { apply (puts_sorted calls empty empty_sorted k tr Hl). }
  destruct (rev (segments tr)) as [|tail r] eqn:Er.
  { apply (f_equal (@rev _)) in Er. rewrite rev_involutive in Er. contradiction. }
  assert (Ht : last_item (segments tr) = Ok tail).
  { unfold last_item. rewrite Er. reflexivity. }
  apply (closed_tail_finished_inv calls k tr tail Hl Ht).
  destruct (PutSegment.last_item_app _ _ Ht) as [l0 Hl0].
  apply Hlatest.
  - rewrite Hl0. apply in_or_app. right. left. reflexivity.
  - intros s' Hs'. rewrite Hl0 in Hs', Hsorted.
    apply in_app_or in Hs'. destruct Hs' as [Hs'|[<-|[]]]; [right | left; reflexivity].
    apply (PutSegment.strongly_sorted_app_last l0 tail); [|exact Hs'].
    apply sorted_strongly. exact Hsorted.
Qed.

(** The segment that starts last was put first. *)
Lemma latest_closed_is_finished_witness :
  let a := segment_of (open "a" "t" 10) in
  let b := segment_of (closed "b" "t" 30 40) in
  let c := segment_of (open "c" "t" 20) in
  exists tr,
    lookup (KStr "t") (puts [b; a; c] empty) = Some tr /\
    segments tr = [a; c; b] /\ finished tr = true.
Proof.
  intros a b c.
  exists (get_or_new (KStr "t") (puts [b; a; c] empty)).
  split; [reflexivity|]. split; [reflexivity|].
  apply (latest_closed_is_finished [b; a; c] (KStr "t")).
  - reflexivity.
  - vm_compute. discriminate.
  - intros s Hin Hmax.
    assert (Hb : b = s \/ start_le b s).
    { apply Hmax. vm_compute. right. right. left. reflexivity. }
    destruct Hb as [<-|(db & ds & Hdb & Hds & Hle)]; [reflexivity|].
    vm_compute in Hdb. injection Hdb as <-.
    vm_compute in Hin.
    destruct Hin as [<-|[<-|[<-|[]]]]; [| |reflexivity];
      vm_compute in Hds; injection Hds as <-; exfalso; vm_compute in Hle;
      apply Hle; reflexivity.
Defined.

Lemma put_in_trace_incl segment old s :
  In s (segments old) -> In s (segments (snd (put_in_trace segment old))).
Proof. apply put_in_trace_grows. Qed.

(** X7.  In a store built from the empty one, the window of a trace that
    is not finished is still the epoch pair of a new trace item; a
    finished trace has a segment with an end time; and a window that has
    been written is made of the start date of one segment of the trace
    and the end date of one. *)
Theorem window_comes_from_segments :
  forall (calls : list TraceSegment.t) (k : key) (tr : trace),
    lookup k (puts calls empty) = Some tr ->
    (finished tr = false -> start_date tr = 0 /\ end_date tr = 0) /\
    (finished tr = true ->
       exists s, In s (segments tr) /\
         is_not_none (TraceSegment.end_time s) = true) /\
    ((start_date tr = 0 /\ end_date tr = 0) \/
     exists s1 s2,
       In s1 (segments tr) /\ In s2 (segments tr) /\
       TraceSegment.start_date s1 = Ok (start_date tr) /\
       TraceSegment.end_date s2 = Ok (end_date tr)).
Proof.
  intros calls k tr Hl. revert Hl.
  apply (trace_invariant
           (fun tr =>
              (finished tr = false -> start_date tr = 0 /\ end_date tr = 0) /\
              (finished tr = true ->
                 exists s, In s (segments tr) /\
                   is_not_none (TraceSegment.end_time s) = true) /\
              ((start_date tr = 0 /\ end_date tr = 0) \/
               exists s1 s2,
                 In s1 (segments tr) /\ In s2 (segments tr) /\
                 TraceSegment.start_date s1 = Ok (start_date tr) /\
                 TraceSegment.end_date s2 = Ok (end_date tr)))).
  - split; [auto|]. split; [discriminate | auto].
  - clear. intros segment old (I1 & I2 & I3).
    pose proof (put_in_trace_incl segment old) as Hincl.
    assert (Hlast : forall l tail, last_item l = Ok tail -> In tail l).
    { intros l tail H. destruct (PutSegment.last_item_app l tail H) as [l0 ->].
      apply in_or_app. right. left. reflexivity. }
    assert (Hfirst : forall l head, first_item l = Ok head -> In head l).
    { intros [|x l] head H; [discriminate|]. inversion H. left. reflexivity. }
    destruct (put_in_trace_cases segment old)
      as [(e1 & _ & Hp)|[(segs & tail & _ & Ht & Hn & Hp)
         |[(segs & tail & e1 & _ & Ht & Hn & Hp)
          |(segs & head & tail & s & e' & _ & Hh & Ht & Hn & Hs & He & Hp)]]];
      rewrite Hp in Hincl |- *; simpl in Hincl |- *.
    + auto.
    + split; [exact I1|]. split.
      * intros Hf. destruct (I2 Hf) as (s & Hs & Hc). exists s. auto.
      * destruct I3 as [I3|(s1 & s2 & H1 & H2 & H3 & H4)]; [left; exact I3|].
        right. exists s1, s2. auto.
    + split; [discriminate|]. split.
      * intros _. exists tail. split; [apply Hlast; exact Ht | exact Hn].
      * destruct I3 as [I3|(s1 & s2 & H1 & H2 & H3 & H4)]; [left; exact I3|].
        right. exists s1, s2. auto.
    + split; [discriminate|]. split.
      * intros _. exists tail. split; [apply Hlast; exact Ht | exact Hn].
      * right. exists head, tail.
        split; [apply Hfirst; exact Hh|]. split; [apply Hlast; exact Ht|]. auto.
Qed.

Lemma window_comes_from_segments_witness :
  let a := segment_of (closed "a" "t" 10 100) in
  let c := segment_of (open "c" "u" 20) in
  exists tr,
    lookup (KStr "u") (puts [a; c] empty) = Some tr /\
    start_date tr = 0 /\ end_date tr = 0.
Proof.
  intros a c.
  exists (get_or_new (KStr "u") (puts [a; c] empty)).
  split; [reflexivity|].
  apply (window_comes_from_segments [a; c] (KStr "u") _ eq_refl).
  reflexivity.
Defined.

Lemma keys_alter f k st : map fst (alter f k st) = map fst st.
Proof.
  induction st as [|[k' tr] st IH]; simpl; [reflexivity|].
  destruct (key_eqb k' k); simpl; [reflexivity | rewrite IH; reflexivity].
Qed.

Lemma lookup_none_keys k st : lookup k st = None -> ~ In k (map fst st).
Proof.
  induction st as [|[k' tr] st IH]; simpl; [tauto|].
  destruct (key_eqb k' k) eqn:E; [discriminate|].
  intros H [Heq|Hin]; [|exact (IH H Hin)].
  subst k'. rewrite key_eqb_refl in E. discriminate.
Qed.

Lemma keys_put segment k st :
  hash_key (TraceSegment.trace_id segment) = Ok k ->
  map fst (snd (put_segment segment st)) =
    match lookup k st with
    | Some _ => map fst st
    | None => map fst st ++ [k]
    end.
Proof.
  intros Hk. rewrite (put_segment_trace segment k st Hk). simpl snd.
  unfold set. rewrite keys_alter. unfold ensure.
  destruct (lookup k st); [reflexivity|].
  rewrite map_app. reflexivity.
Qed.

Lemma nodup_snoc (l : list key) k : NoDup l -> ~ In k l -> NoDup (l ++ [k]).
Proof.
  intros Hl Hk. induction Hl as [|x l Hx Hl IH]; simpl.
  - constructor; [tauto | constructor].
  - constructor.
    + intros Hin. apply in_app_or in Hin. destruct Hin as [Hin|[->|[]]].
      * contradiction.
      * apply Hk. left. reflexivity.
    + apply IH. intros Hin. apply Hk. right. exact Hin.
Qed.

Lemma put_segment_keys_unique segment st :
  NoDup (map fst st) -> NoDup (map fst (snd (put_segment segment st))).
Proof.
  intros Hst.
  destruct (hash_key (TraceSegment.trace_id segment)) as [k|e] eqn:Hk.
  - rewrite (keys_put segment k st Hk).
    destruct (lookup k st) eqn:E; [exact Hst|].
    apply nodup_snoc; [exact Hst | apply lookup_none_keys; exact E].
  - rewrite (put_segment_unhashable segment e st Hk). exact Hst.
Qed.

Lemma puts_keys_unique calls st :
  NoDup (map fst st) -> NoDup (map fst (puts calls st)).
Proof.
  revert st. induction calls as [|c calls IH]; intros st Hst; [exact Hst|].
  rewrite puts_cons. apply IH. apply put_segment_keys_unique. exact Hst.
Qed.

(** X8.  The traces of a store built from the empty one have pairwise
    different ids, in the order of their first [put_segment]: a call
    keeps the list of ids, or adds the id of its segment at the end when
    the store had no trace of that id. *)
Theorem trace_ids_in_order_of_arrival :
  forall (calls : list TraceSegment.t) (segment : TraceSegment.t),
    let st := puts calls empty in
    let st' := snd (put_segment segment st) in
    NoDup (map fst st') /\
    (map fst st' = map fst st \/
     exists k,
       hash_key (TraceSegment.trace_id segment) = Ok k /\
       lookup k st = None /\ map fst st' = map fst st ++ [k]).
Proof.
  intros calls segment st st'. split.
  - apply put_segment_keys_unique. apply puts_keys_unique. constructor.
  - unfold st'.
    destruct (hash_key (TraceSegment.trace_id segment)) as [k|e] eqn:Hk.
    + rewrite (keys_put segment k st Hk).
      destruct (lookup k st) eqn:E; [left; reflexivity|].
      right. exists k. auto.
    + rewrite (put_segment_unhashable segment e st Hk). left. reflexivity.
Qed.

End StoreInvariants.

(** ** A first segment whose start time is no timestamp *)

Module UndatedSegments.
Import SegmentCollection Notions StoreFacts PutFacts OrderFacts.
Import PutEffects StoreInvariants Samples.

(** A new trace takes an open segment without any comparison or
    conversion. *)
Lemma put_segment_new_open segment k st :
  hash_key (TraceSegment.trace_id segment) = Ok k ->
  lookup k st = None ->
  TraceSegment.end_time segment = JNull ->
  put_segment segment st =
    (Ok tt, st ++ [(k, set_segments [segment] _new_trace_item)]).
Proof.
  intros Hk Hl Hn. rewrite (put_segment_trace segment k st Hk).
  unfold get_or_new, ensure. rewrite Hl.
  unfold put_in_trace. cbn [segments _new_trace_item].
  rewrite insort_left_nil. cbn [last_item rev app].
  rewrite Hn. cbn [is_not_none fst snd].
  rewrite (set_app_absent k _ _ st Hl). reflexivity.
Qed.

(** A trace made of one segment without a start date lets nothing in. *)
Lemma put_segment_blocked segment' k st tr s e :
  lookup k st = Some tr -> segments tr = [s] ->
  TraceSegment.start_date s = Raise e ->
  hash_key (TraceSegment.trace_id segment') = Ok k ->
  put_segment segment' st = (Raise e, st).
Proof.
  intros Hl Hs He Hk. rewrite (put_segment_trace segment' k st Hk).
  assert (Hold : get_or_new k st = tr) by (unfold get_or_new; rewrite Hl; reflexivity).
  rewrite Hold, (ensure_present k st tr Hl).
  assert (Hi : insort_left (segments tr) segment' = Raise e).
  { rewrite Hs. unfold insort_left, bisect_left.
    cbn [length bisect_left_loop Nat.ltb Nat.leb]. cbn [Nat.add].
    change ((1 / 2)%nat) with 0%nat. cbn [nth_error].
    unfold TraceSegment.lt. rewrite He. reflexivity. }
  unfold put_in_trace. rewrite Hi. cbn [fst snd].
  rewrite (set_same k tr st Hl). reflexivity.
Qed.

(** X9.  The first segment of a trace is stored without its start time
    being looked at.  When it is open and its start time is no valid
    timestamp, the call returns normally, and from then on every
    [put_segment] on that trace raises the conversion error and changes
    nothing, whatever is put on other traces in between. *)
Theorem undated_first_segment_blocks_trace :
  forall (st : t) (segment : TraceSegment.t) (k : key) (e : exn),
    hash_key (TraceSegment.trace_id segment) = Ok k ->
    lookup k st = None ->
    TraceSegment.end_time segment = JNull ->
    TraceSegment.start_date segment = Raise e ->
    exists st1,
      put_segment segment st = (Ok tt, st1) /\
      forall calls segment',
        hash_key (TraceSegment.trace_id segment') = Ok k ->
        put_segment segment' (puts calls st1) = (Raise e, puts calls st1).
Proof.
  intros st segment k e Hk Hl Hn He.
  eexists. split; [apply (put_segment_new_open segment k st Hk Hl Hn)|].
  set (st1 := st ++ [(k, set_segments [segment] _new_trace_item)]).
  assert (H1 : exists tr, lookup k st1 = Some tr /\ segments tr = [segment]).
  { eexists. split; [apply lookup_app_absent; exact Hl | reflexivity]. }
  clearbody st1.
  intros calls. revert st1 H1.
  induction calls as [|c calls IH]; intros st1 (tr & Htr & Hseg) segment' Hk'.
  - apply (put_segment_blocked segment' k st1 tr segment e Htr Hseg He Hk').
  - rewrite puts_cons. apply IH; [|exact Hk'].
    destruct (hash_key (TraceSegment.trace_id c)) as [kc|ec] eqn:Hc.
    + destruct (key_eqb kc k) eqn:E.
      * apply key_eqb_eq in E. subst kc.
        rewrite (put_segment_blocked c k st1 tr segment e Htr Hseg He Hc).
        exists tr. auto.
      * rewrite (lookup_put c kc st1 k Hc), E. exists tr. auto.
    + rewrite (put_segment_unhashable c ec st1 Hc). exists tr. auto.
Qed.

Lemma undated_first_segment_blocks_trace_witness :
  let x := segment_of [("id", JStr "x"); ("name", JStr "n");
                       ("trace_id", JStr "t"); ("start_time", JStr "now");
                       ("in_progress", JBool true)] in
  let b := segment_of (closed "b" "t" 20 30) in
  let c := segment_of (closed "c" "u" 20 30) in
  exists st1,
    put_segment x empty = (Ok tt, st1) /\
    put_segment b (puts [c] st1) = (Raise TypeError, puts [c] st1).
Proof.
  intros x b c.
  destruct (undated_first_segment_blocks_trace empty x (KStr "t") TypeError
              eq_refl eq_refl eq_refl eq_refl) as (st1 & H1 & H2).
  exists st1. split; [exact H1|].
  apply (H2 [c] b). reflexivity.
Defined.

End UndatedSegments.

(** ** from_dict: what it accepts and what it builds *)

Module FromDict.
Import Samples.

Lemma dict_get_set_same k v d : dict_get k (dict_set k v d) = Some v.
Proof.
  induction d as [|[k2 v2] d IH]; simpl.
  - rewrite String.eqb_refl. reflexivity.
  - destruct (String.eqb k2 k) eqn:E; simpl; rewrite E; [reflexivity | exact IH].
Qed.

Lemma dict_get_filter (f : string -> bool) k d :
  dict_get k (filter (fun kv => f (fst kv)) d) =
    if f k then dict_get k d else None.
Proof.
  induction d as [|[k2 v2] d IH]; simpl.
  - destruct (f k); reflexivity.
  - destruct (String.eqb_spec k2 k) as [->|Hne].
    + destruct (f k) eqn:Ef; simpl.
      * rewrite String.eqb_refl. reflexivity.
      * exact IH.
    + destruct (f k2); simpl; [|exact IH].
      destruct (String.eqb_spec k2 k); [contradiction | exact IH].
Qed.

Lemma dict_get_has k d v : dict_get k d = Some v -> dict_has k d = true.
Proof. intros H. rewrite Parsing.dict_has_get, H. reflexivity. Qed.

Lemma dict_has_false_get k d : dict_has k d = false -> dict_get k d = None.
Proof.
  rewrite Parsing.dict_has_get. destruct (dict_get k d); [discriminate | reflexivity].
Qed.

Lemma dict_has_true_get k d : dict_has k d = true -> exists v, dict_get k d = Some v.
Proof.
  rewrite Parsing.dict_has_get. destruct (dict_get k d) as [v|]; [eauto | discriminate].
Qed.

(** The segment that [init] builds. *)
Lemma init_ok_inv data seg :
  TraceSegment.init data = Ok seg ->
  dict_has "self" data = false /\
  dict_get "name" data = Some (TraceSegment.name seg) /\
  dict_get "segment_id" data = Some (TraceSegment.id seg) /\
  dict_get "trace_id" data = Some (TraceSegment.trace_id seg) /\
  dict_get "start_time" data = Some (TraceSegment.start_time seg) /\
  TraceSegment.end_time seg = dict_get_default "end_time" JNull data /\
  TraceSegment.in_progress seg = dict_get_default "in_progress" (JBool false) data /\
  TraceSegment.misc seg =
    filter (fun kv => negb (TraceSegment.is_init_param (fst kv))) data.
Proof.
  unfold TraceSegment.init.
  destruct (dict_has "self" data) eqn:Hself; [discriminate|].
  destruct (false || _); [discriminate|].
  destruct (dict_get "name" data); [|discriminate].
  destruct (dict_get "segment_id" data); [|discriminate].
  destruct (dict_get "trace_id" data); [|discriminate].
  destruct (dict_get "start_time" data); [|discriminate].
  intros H. inversion H. simpl. repeat split; reflexivity.
Qed.

(** What an accepted dictionary looks like. *)
Lemma from_dict_ok_inv d seg :
  TraceSegment.from_dict (JObj d) = Ok seg ->
  exists seg_id,
    dict_get "id" d = Some seg_id /\
    dict_has "name" d = true /\ dict_has "trace_id" d = true /\
    dict_has "start_time" d = true /\
    (dict_has "end_time" d = true \/
     exists v, dict_get "in_progress" d = Some v /\ v <> JStr "false") /\
    TraceSegment.init (dict_set "segment_id" seg_id d) = Ok seg.
Proof.
  intros H.
  destruct (dict_get "id" d) as [seg_id|] eqn:Hid.
  2:{ rewrite Parsing.from_dict_no_id in H; [discriminate|].
      rewrite Parsing.dict_has_get, Hid. reflexivity. }
  exists seg_id. split; [reflexivity|].
  destruct (dict_has "name" d) eqn:Hn.
  2:{ rewrite (Parsing.from_dict_missing_arg d seg_id Hid) in H; [discriminate | auto]. }
  destruct (dict_has "trace_id" d) eqn:Ht.
  2:{ rewrite (Parsing.from_dict_missing_arg d seg_id Hid) in H; [discriminate | auto]. }
  destruct (dict_has "start_time" d) eqn:Hs.
  2:{ rewrite (Parsing.from_dict_missing_arg d seg_id Hid) in H; [discriminate | auto]. }
  rewrite (Parsing.from_dict_mandatory_present d seg_id Hid Hn Ht Hs) in H.
  repeat split.
  - destruct (dict_has "end_time" d); [left; reflexivity|]. right.
    cbn [negb andb] in H. rewrite Parsing.dict_has_get in H.
    unfold dict_get_default in H.
    destruct (dict_get "in_progress" d) as [v|]; [|discriminate].
    exists v. split; [reflexivity|]. intros ->. discriminate.
  - destruct (negb (dict_has "end_time" d) && negb (dict_has "in_progress" d));
      [discriminate|].
    destruct (negb (dict_has "end_time" d)
              && eq_str (dict_get_default "in_progress" JNull d) "false");
      [discriminate | exact H].
Qed.

(** X10.  When [from_dict] accepts a dictionary, the segment has the
    [id], [name], [trace_id] and [start_time] of the document (a
    [segment_id] of the document is overwritten by [id]), its [end_time]
    is that of the document or [None], its [in_progress] that of the
    document or [False]; and the document has an [end_time], or an
    [in_progress] other than the string [false]. *)
Theorem from_dict_builds_segment :
  forall (d : dict) (seg : TraceSegment.t),
    TraceSegment.from_dict (JObj d) = Ok seg ->
    dict_get "id" d = Some (TraceSegment.id seg) /\
    dict_get "name" d = Some (TraceSegment.name seg) /\
    dict_get "trace_id" d = Some (TraceSegment.trace_id seg) /\
    dict_get "start_time" d = Some (TraceSegment.start_time seg) /\
    TraceSegment.end_time seg = dict_get_default "end_time" JNull d /\
    TraceSegment.in_progress seg = dict_get_default "in_progress" (JBool false) d /\
    (dict_has "end_time" d = true \/
     exists v, dict_get "in_progress" d = Some v /\ v <> JStr "false").
Proof.
  intros d seg H.
  destruct (from_dict_ok_inv d seg H) as (seg_id & Hid & _ & _ & _ & Hend & Hinit).
  destruct (init_ok_inv _ _ Hinit) as (_ & Hn & Hi & Ht & Hs & He & Hp & _).
  rewrite dict_get_set_same in Hi. inversion Hi. subst seg_id.
  rewrite Parsing.dict_get_set_other in Hn, Ht, Hs by discriminate.
  unfold dict_get_default in *.
  rewrite Parsing.dict_get_set_other in He, Hp by discriminate.
  repeat split; assumption.
Qed.

(** A document that carries a [segment_id] of its own. *)
Lemma from_dict_builds_segment_witness :
  let d := [("segment_id", JStr "other"); ("id", JStr "a"); ("name", JStr "n");
            ("trace_id", JStr "t"); ("start_time", JNum 10);
            ("in_progress", JBool false)] in
  exists seg,
    TraceSegment.from_dict (JObj d) = Ok seg /\
    TraceSegment.id seg = JStr "a" /\ TraceSegment.end_time seg = JNull.
Proof.
  intros d. exists (segment_of d). split; [reflexivity|].
  destruct (from_dict_builds_segment d (segment_of d) eq_refl)
    as (Hid & _ & _ & _ & He & _).
  split; [|exact He].
  exact (f_equal (fun o => match o with Some v => v | None => JNull end)
           (eq_sym Hid)).
Defined.

(** X11.  When [from_dict] accepts a dictionary, [misc] holds the fields
    of the document that are no parameters of the constructor, with their
    values, and no others; [id] is always among them. *)
Theorem from_dict_misc :
  forall (d : dict) (seg : TraceSegment.t),
    TraceSegment.from_dict (JObj d) = Ok seg ->
    (forall k,
       dict_get k (TraceSegment.misc seg) =
         if TraceSegment.is_init_param k then None else dict_get k d) /\
    dict_get "id" (TraceSegment.misc seg) = Some (TraceSegment.id seg).
Proof.
  intros d seg H.
  destruct (from_dict_ok_inv d seg H) as (seg_id & Hid & _ & _ & _ & _ & Hinit).
  destruct (init_ok_inv _ _ Hinit) as (_ & _ & Hi & _ & _ & _ & _ & Hm).
  rewrite dict_get_set_same in Hi. inversion Hi. subst seg_id.
  assert (Hk : forall k,
             dict_get k (TraceSegment.misc seg) =
               if TraceSegment.is_init_param k then None else dict_get k d).
  { intros k. rewrite Hm.
    rewrite (dict_get_filter (fun k => negb (TraceSegment.is_init_param k))).
    destruct (TraceSegment.is_init_param k) eqn:E; cbn [negb]; [reflexivity|].
    apply Parsing.dict_get_set_other. intros ->. discriminate. }
  split; [exact Hk|]. rewrite Hk. exact Hid.
Qed.

Lemma from_dict_misc_witness :
  let d := closed "a" "t" 10 100 ++ [("error", JBool false); ("http", JNull)] in
  dict_get "error" (TraceSegment.misc (segment_of d)) = Some (JBool false) /\
  dict_get "http" (TraceSegment.misc (segment_of d)) = None.
Proof.
  intros d.
  destruct (from_dict_misc d (segment_of d) eq_refl) as [Hk _].
  split; rewrite Hk; reflexivity.
Defined.

End FromDict.

(** ** process_segment: outcomes *)

Module ProcessSegment.
Import SegmentCollection Notions StoreFacts PutFacts OrderFacts.
Import PutEffects StoreInvariants FromDict Samples.

Lemma from_dict_obj_cases d :
  (exists seg, TraceSegment.from_dict_obj d = Ok seg) \/
  TraceSegment.from_dict_obj d = Raise TypeError \/
  (exists e, TraceSegment.from_dict_obj d = Raise e /\ missing_param e).
Proof.
  assert (Hmp : forall i m,
            m = "Missing segment ID" \/ m = "Missing end_time or in_progress"
              \/ m = "Missing end_time" ->
            missing_param (BadSegmentException i "MissingParam" (Lit m))).
  { intros i m H. exists i, m. auto. }
  unfold TraceSegment.from_dict_obj.
  destruct (dict_has "id" d) eqn:Hid; cbn [negb].
  2:{ right. right. eexists. split; [reflexivity|]. apply Hmp. auto. }
  cbn [TraceSegment.check_args].
  rewrite !Parsing.dict_has_set_other by discriminate.
  destruct (dict_has "name" d) eqn:Hn; cbn [negb].
  2:{ right. right. eexists. split; [reflexivity|]. apply Hmp. auto. }
  destruct (dict_has "trace_id" d) eqn:Ht; cbn [negb].
  2:{ right. right. eexists. split; [reflexivity|]. apply Hmp. auto. }
  destruct (dict_has "start_time" d) eqn:Hs; cbn [negb].
  2:{ right. right. eexists. split; [reflexivity|]. apply Hmp. auto. }
  destruct (negb (dict_has "end_time" d) && negb (dict_has "in_progress" d)).
  { right. right. eexists. split; [reflexivity|]. apply Hmp. auto. }
  match goal with |- context [if ?c then _ else _] => destruct c end.
  { right. right. eexists. split; [reflexivity|]. apply Hmp. auto. }
  unfold TraceSegment.init.
  destruct (dict_has "self" _ || _).
  { right. left. reflexivity. }
  left.
  rewrite (Parsing.dict_get_set_other "name") by discriminate.
  rewrite (Parsing.dict_get_set_other "trace_id") by discriminate.
  rewrite (Parsing.dict_get_set_other "start_time") by discriminate.
  rewrite dict_get_set_same.
  destruct (dict_has_true_get _ _ Hn) as [vn ->].
  destruct (dict_has_true_get _ _ Ht) as [vt ->].
  destruct (dict_has_true_get _ _ Hs) as [vs ->].
  eexists. reflexivity.
Qed.


(** X12.  [from_dict] returns a segment only for a dictionary; its
    rejections all have the code [MissingParam]; and beside them it
    raises a [TypeError] and nothing else, in particular no
    [ValueError]. *)
Theorem from_dict_outcomes :
  forall (data : json),
    match TraceSegment.from_dict data with
    | Ok _ => exists d, data = JObj d
    | Raise TypeError => True
    | Raise (BadSegmentException i c m) =>
        missing_param (BadSegmentException i c m)
    | Raise _ => False
    end.
Proof.
  assert (Hmp : forall i,
            missing_param (BadSegmentException i "MissingParam"
                             TraceSegment.missing_segment_id)).
  { intros i. exists i, "Missing segment ID"%string. auto. }
  intros [| b | q | s | l | d]; cbn [TraceSegment.from_dict];
    try exact I.
  - destruct (negb (contains "id" s)); [apply Hmp | exact I].
  - destruct (negb (existsb (fun v => eq_str v "id") l));
      [apply Hmp | exact I].
  - destruct (from_dict_obj_cases d) as [(seg & ->)|[->|(e & -> & He)]].
    + eauto.
    + exact I.
    + destruct He as (i & m & -> & Hm). exists i, m. auto.
Qed.


(** What a call of [process_segment] that returns has gone through. *)
Lemma process_segment_steps json_loads doc st :
  match XRayBackend.process_segment json_loads doc st with
  | (Ok _, st') =>
      exists data seg,
        json_loads doc = Some data /\
        TraceSegment.from_dict data = Ok seg /\
        put_segment seg st = (Ok tt, st')
  | (Raise _, _) => True
  end.
Proof.
  unfold XRayBackend.process_segment.
  destruct (json_loads doc) as [data|] eqn:El; [|exact I].
  destruct (TraceSegment.from_dict data) as [seg|e] eqn:Ef.
  - destruct (put_segment seg st) as [[[]|err] st'] eqn:Ep; [|exact I].
    exists data, seg. auto.
  - destruct e; exact I.
Qed.


(** X14.  A document that [process_segment] has processed is in the
    store: it decodes to a dictionary, the store has the trace of its
    [trace_id], and that trace holds a segment with the [id] of the
    document. *)
Theorem processed_document_is_stored :
  forall (json_loads : string -> option json) (doc : string) (st st' : t),
    XRayBackend.process_segment json_loads doc st = (Ok tt, st') ->
    exists d seg k tr,
      json_loads doc = Some (JObj d) /\
      dict_get "id" d = Some (TraceSegment.id seg) /\
      dict_get "trace_id" d = Some (TraceSegment.trace_id seg) /\
      hash_key (TraceSegment.trace_id seg) = Ok k /\
      lookup k st' = Some tr /\
      In seg (segments tr).
Proof.
  intros json_loads doc st st' Hp.
  pose proof (process_segment_steps json_loads doc st) as Ho.
  rewrite Hp in Ho. destruct Ho as (data & seg & Hl & Hf & Hput).
  destruct data as [| b | q | s | l | d];
    try (cbn in Hf; discriminate).
  - cbn in Hf. destruct (negb (contains "id" s)); discriminate.
  - cbn in Hf. destruct (negb (existsb (fun v => eq_str v "id") l)); discriminate.
  - destruct (from_dict_ok_inv d seg Hf) as (seg_id & Hid & _ & _ & _ & _ & Hinit).
    destruct (init_ok_inv _ _ Hinit) as (_ & _ & Hi & Ht & _).
    rewrite dict_get_set_same in Hi. inversion Hi. subst seg_id.
    rewrite Parsing.dict_get_set_other in Ht by discriminate.
    destruct (hash_key (TraceSegment.trace_id seg)) as [k|e] eqn:Hk.
    2:{ rewrite (put_segment_unhashable seg e st Hk) in Hput. discriminate. }
    pose proof (lookup_put_same seg k st Hk) as Hlk.
    pose proof (put_segment_result seg k st Hk) as Hr.
    rewrite Hput in Hlk, Hr. simpl in Hlk, Hr.
    exists d, seg, k, (snd (put_in_trace seg (get_or_new k st))).
    repeat split; auto.
    rewrite put_in_trace_segments.
    destruct (insort_left (segments (get_or_new k st)) seg) as [segs|e] eqn:Ei.
    + eapply PutSegment.insort_left_in. exact Ei.
    + unfold put_in_trace in Hr. rewrite Ei in Hr. discriminate.
Qed.

Lemma processed_document_is_stored_witness :
  let doc := doc_closed "s1" "t1" "100" "200" in
  let st' := snd (XRayBackend.process_segment sample_loads doc empty) in
  exists d seg k tr,
    sample_loads doc = Some (JObj d) /\
    dict_get "id" d = Some (TraceSegment.id seg) /\
    dict_get "trace_id" d = Some (TraceSegment.trace_id seg) /\
    hash_key (TraceSegment.trace_id seg) = Ok k /\
    lookup k st' = Some tr /\
    In seg (segments tr).
Proof.
  intros doc st'.
  apply (processed_document_is_stored sample_loads doc empty st').
  reflexivity.
Defined.

End ProcessSegment.

(** ** summary over a store built by put_segment *)

Module SummaryFacts.
Import SegmentCollection Notions StoreFacts PutFacts OrderFacts.
Import PutEffects StoreInvariants FromDict ProcessSegment Samples.

Lemma summary_result_inv start_time end_time filter_expression sampling now st res st' :
  summary start_time end_time filter_expression sampling now st = (Ok res, st') ->
  filter_expression = JNull /\ st' = st /\
  TraceSummaries res =
    map part_of (filter (fun kt => in_window start_time end_time (snd kt)) st) /\
  TracesProcessedCount res = length (TraceSummaries res).
Proof.
  unfold summary. destruct filter_expression; try discriminate.
  cbn [is_not_none]. unfold bind, items, ret. intros H. inversion H. simpl.
  rewrite Summary.summary_loop_filter. auto.
Qed.

Lemma ids_of_parts (l : list (key * trace)) :
  map Id (map part_of l) = map fst l.
Proof. rewrite map_map. apply map_ext. intros [k tr]. reflexivity. Qed.

Lemma nodup_keys_filter (p : key * trace -> bool) (l : list (key * trace)) :
  NoDup (map fst l) -> NoDup (map fst (filter p l)).
Proof.
  induction l as [|[k tr] l IH]; simpl; intros H; [constructor|].
  inversion H as [|? ? Hk Hl]. subst.
  destruct (p (k, tr)); simpl; [|apply IH; exact Hl].
  constructor; [|apply IH; exact Hl].
  intros Hin. apply Hk. apply in_map_iff in Hin.
  destruct Hin as (x & Hx & Hin). apply filter_In in Hin.
  apply in_map_iff. exists x. tauto.
Qed.

Lemma filter_length_le {A : Type} (p : A -> bool) (l : list A) :
  (length (filter p l) <= length l)%nat.
Proof.
  induction l as [|x l IH]; simpl; [lia|]. destruct (p x); simpl; lia.
Qed.

(** X15.  A summary of a store built from the empty one by [put_segment]
    calls names every trace at most once, and counts what it lists: at
    most as many summaries as the store has traces. *)
Theorem summary_ids_distinct :
  forall (calls : list TraceSegment.t) (start_time end_time : Z)
         (filter_expression : json) (sampling : bool) (now : Z)
         (res : summary_result) (st' : t),
    summary start_time end_time filter_expression sampling now
      (puts calls empty) = (Ok res, st') ->
    NoDup (map Id (TraceSummaries res)) /\
    TracesProcessedCount res = length (TraceSummaries res) /\
    (TracesProcessedCount res <= length (puts calls empty))%nat.
Proof.
  intros calls start_time end_time filter_expression sampling now res st' H.
  apply summary_result_inv in H. destruct H as (_ & _ & Hs & Hc).
  split; [|split; [exact Hc|]].
  - rewrite Hs, ids_of_parts. apply nodup_keys_filter.
    apply puts_keys_unique. constructor.
  - rewrite Hc, Hs, length_map. apply filter_length_le.
Qed.

Lemma summary_ids_distinct_witness :
  let st := puts [segment_of (closed "a" "t" 100 200);
                  segment_of (closed "b" "t" 120 180);
                  segment_of (closed "c" "u" 110 190)] empty in
  exists res,
    summary 50000000 250000000 JNull false 0 st = (Ok res, st) /\
    NoDup (map Id (TraceSummaries res)) /\
    TracesProcessedCount res = 2%nat.
Proof.
  intros st.
  exists (match fst (summary 50000000 250000000 JNull false 0 st) with
          | Ok r => r
          | Raise _ => mk_summary_result 0 0 []
          end).
  split; [reflexivity|].
  split; [|reflexivity].
  apply (summary_ids_distinct
           [segment_of (closed "a" "t" 100 200);
            segment_of (closed "b" "t" 120 180);
            segment_of (closed "c" "u" 110 190)]
           50000000 250000000 JNull false 0 _ st).
  reflexivity.
Defined.

Lemma in_window_wider s e s' e' tr :
  s' <= s -> e <= e' -> in_window s e tr = true -> in_window s' e' tr = true.
Proof.
  intros Hs He. rewrite !Summary.in_window_spec. intros (Hf & H1 & H2).
  repeat split; [exact Hf | lia | lia].
Qed.

(** X16.  Widening the query window loses no summary: what a query
    returns for a trace is returned unchanged by every query over the
    same store whose bounds lie outside its own; the sampling flag and
    the clock play no part in the summaries. *)
Theorem summary_wider_window :
  forall (st : t) (s e s' e' : Z) (f f' : json) (sampling sampling' : bool)
         (now now' : Z) (res res' : summary_result) (st1 st2 : t),
    s' <= s -> e <= e' ->
    summary s e f sampling now st = (Ok res, st1) ->
    summary s' e' f' sampling' now' st = (Ok res', st2) ->
    forall part, In part (TraceSummaries res) -> In part (TraceSummaries res').
Proof.
  intros st s e s' e' f f' sampling sampling' now now' res res' st1 st2
         Hs He H H' part Hin.
  apply summary_result_inv in H. destruct H as (_ & _ & Hr & _).
  apply summary_result_inv in H'. destruct H' as (_ & _ & Hr' & _).
  rewrite Hr in Hin. rewrite Hr'.
  apply in_map_iff in Hin. destruct Hin as (kt & Hp & Hin).
  apply in_map_iff. exists kt. split; [exact Hp|].
  apply filter_In in Hin. apply filter_In.
  split; [tauto|]. apply (in_window_wider s e s' e'); tauto.
Qed.

Lemma summary_wider_window_witness :
  let st := puts [segment_of (closed "a" "t" 100 200)] empty in
  let part := part_of (KStr "t", get_or_new (KStr "t") st) in
  In part (TraceSummaries
             (mk_summary_result 7 1 [part])).
Proof.
  intros st part.
  apply (summary_wider_window st 90000000 210000000 50000000 250000000
           JNull JNull false true 0 7000000
           (mk_summary_result 0 1 [part]) (mk_summary_result 7 1 [part]) st st);
    try reflexivity; try lia.
  left. reflexivity.
Defined.

Lemma in_lookup_unique k tr st :
  NoDup (map fst st) -> In (k, tr) st -> lookup k st = Some tr.
Proof.
  induction st as [|[k' tr'] st IH]; simpl; intros Hn Hin; [destruct Hin|].
  inversion Hn as [|? ? Hk Hl]. subst.
  destruct Hin as [Heq|Hin].
  - inversion Heq. subst. rewrite key_eqb_refl. reflexivity.
  - destruct (key_eqb k' k) eqn:E.
    + apply key_eqb_eq in E. subst k'. exfalso. apply Hk.
      apply in_map_iff. exists (k, tr). auto.
    + apply IH; assumption.
Qed.

Lemma misc_has_field d seg k :
  TraceSegment.from_dict (JObj d) = Ok seg ->
  TraceSegment.is_init_param k = false ->
  dict_has k (TraceSegment.misc seg) = dict_has k d.
Proof.
  intros H Hk.
  destruct (from_dict_ok_inv d seg H) as (seg_id & _ & _ & _ & _ & _ & Hinit).
  destruct (init_ok_inv _ _ Hinit) as (_ & _ & _ & _ & _ & _ & _ & Hm).
  rewrite !Parsing.dict_has_get, Hm.
  rewrite (dict_get_filter (fun k => negb (TraceSegment.is_init_param k))), Hk.
  cbn [negb]. rewrite Parsing.dict_get_set_other; [reflexivity|].
  intros ->. discriminate.
Qed.

Lemma put_ok_stored seg st st' k :
  put_segment seg st = (Ok tt, st') ->
  hash_key (TraceSegment.trace_id seg) = Ok k ->
  exists tr, lookup k st' = Some tr /\ In seg (segments tr).
Proof.
  intros Hput Hk.
  pose proof (lookup_put_same seg k st Hk) as Hlk.
  pose proof (put_segment_result seg k st Hk) as Hr.
  rewrite Hput in Hlk, Hr. simpl in Hlk, Hr.
  eexists. split; [exact Hlk|].
  rewrite put_in_trace_segments.
  destruct (insort_left (segments (get_or_new k st)) seg) as [segs|e] eqn:Ei.
  - eapply PutSegment.insort_left_in. exact Ei.
  - unfold put_in_trace in Hr. rewrite Ei in Hr. discriminate.
Qed.

(** X17.  A processed document that has a field [error], [fault] or
    [throttle], whatever its value, shows in every later summary of its
    trace as [HasError], [HasFault] or [HasThrottle]. *)
Theorem stored_flag_is_reported :
  forall (calls : list TraceSegment.t) (json_loads : string -> option json)
         (doc : string) (d : dict) (v : json) (st' : t),
    json_loads doc = Some (JObj d) ->
    dict_get "trace_id" d = Some v ->
    XRayBackend.process_segment json_loads doc (puts calls empty) = (Ok tt, st') ->
    forall (more : list TraceSegment.t) (start_time end_time : Z) (f : json)
           (sampling : bool) (now : Z) (res : summary_result) (st2 : t)
           (part : summary_part),
      summary start_time end_time f sampling now (puts more st') = (Ok res, st2) ->
      In part (TraceSummaries res) ->
      hash_key v = Ok (Id part) ->
      (dict_has "error" d = true -> HasError part = true) /\
      (dict_has "fault" d = true -> HasFault part = true) /\
      (dict_has "throttle" d = true -> HasThrottle part = true).
Proof.
  intros calls json_loads doc d v st' Hl Hv Hp more start_time end_time f
         sampling now res st2 part Hs Hin Hk.
  pose proof (process_segment_steps json_loads doc (puts calls empty)) as Ho.
  rewrite Hp in Ho. destruct Ho as (data & seg & Hl' & Hf & Hput).
  rewrite Hl in Hl'. inversion Hl'. subst data. clear Hl'.
  destruct (from_dict_ok_inv d seg Hf) as (seg_id & _ & _ & _ & _ & _ & Hinit).
  destruct (init_ok_inv _ _ Hinit) as (_ & _ & _ & Ht & _).
  rewrite Parsing.dict_get_set_other in Ht by discriminate.
  rewrite Hv in Ht. inversion Ht. subst v. clear Ht.
  destruct (put_ok_stored seg _ st' (Id part) Hput Hk) as (tr1 & Hl1 & Hin1).
  destruct (put_segment_grows_many more st' (Id part) tr1 Hl1)
    as (tr & Hlk & Hgrow).
  assert (Hseg : In seg (segments tr)) by (apply Hgrow; exact Hin1).
  assert (Hu : NoDup (map fst (puts more st'))).
  { apply puts_keys_unique.
    replace st' with (snd (put_segment seg (puts calls empty)))
      by (rewrite Hput; reflexivity).
    apply put_segment_keys_unique. apply puts_keys_unique. constructor. }
  apply summary_result_inv in Hs. destruct Hs as (_ & _ & Hr & _).
  rewrite Hr in Hin. apply in_map_iff in Hin.
  destruct Hin as ([k2 tr2] & Hpart & Hin2).
  apply filter_In in Hin2. destruct Hin2 as [Hin2 _].
  subst part. cbn [part_of fst snd make_summary_part Id] in Hlk.
  rewrite (in_lookup_unique k2 tr2 _ Hu Hin2) in Hlk. inversion Hlk. subst tr2.
  cbn [part_of fst snd make_summary_part HasError HasFault HasThrottle].
  unfold any_misc.
  repeat split; intros Hd; apply existsb_exists; exists seg;
    (split; [exact Hseg|]);
    rewrite (misc_has_field d seg _ Hf) by reflexivity; exact Hd.
Qed.

Lemma stored_flag_is_reported_witness :
  let st' := snd (XRayBackend.process_segment MoreSamples.fault_loads
                    MoreSamples.doc_fault empty) in
  let part := part_of (KStr "t2", get_or_new (KStr "t2") st') in
  HasFault part = true /\ HasError part = false.
Proof.
  intros st' part. split; [|reflexivity].
  destruct (stored_flag_is_reported [] MoreSamples.fault_loads
              MoreSamples.doc_fault MoreSamples.fault_dict (JStr "t2") st'
              eq_refl eq_refl eq_refl
              [] 50000000 250000000 JNull false 0
              (mk_summary_result 0 1 [part]) st' part
              eq_refl (or_introl eq_refl) eq_refl) as (_ & H & _).
  apply H. reflexivity.
Defined.

End SummaryFacts.

(** ** trace_segments: what a batch leaves in the store *)

Module BatchCommit.
Import SegmentCollection Notions StoreFacts PutFacts OrderFacts.
Import PutEffects StoreInvariants FromDict ProcessSegment SummaryFacts.
Import Samples XRayResponse.







(** In the batch of three documents whose second one is malformed, the
    first and the third are in the store that the handler leaves. *)
Example batch_partial_failure_commits :
  let d1 := doc_closed "s1" "t1" "100" "200" in
  let d3 := doc_closed "s3" "t3" "300" "400" in
  let st' := snd (trace_segments sample_loads (Some [d1; "{"; d3]) empty) in
  stored sample_loads d1 st' /\ stored sample_loads d3 st'.
Proof.
  intros d1 d3 st'. split.
  - exists (closed "s1" "t1" 100 200), (segment_of (closed "s1" "t1" 100 200)),
           (KStr "t1"), (get_or_new (KStr "t1") st').
    split; [reflexivity|]. split; [reflexivity|]. split; [reflexivity|].
    split; [reflexivity|]. vm_compute. left. reflexivity.
  - exists (closed "s3" "t3" 300 400), (segment_of (closed "s3" "t3" 300 400)),
           (KStr "t3"), (get_or_new (KStr "t3") st').
    split; [reflexivity|]. split; [reflexivity|]. split; [reflexivity|].
    split; [reflexivity|]. vm_compute. left. reflexivity.
Qed.

End BatchCommit.

(** ** The handlers *)

Module RequestFacts.
Import SegmentCollection Notions Samples.
Import XRayResponse Requests.

Section Handlers.

Variable json_loads : string -> option json.
Variable to_datetime : json -> conversion.


Lemma items_of_strings docs :
  forall bad st,
    trace_segments_items json_loads (map JStr docs) bad st =
    trace_segments_loop json_loads docs bad st.
Proof.
  induction docs as [|doc docs IH]; intros bad st; [reflexivity|].
  cbn [map trace_segments_items trace_segments_loop process_item].
  destruct (XRayBackend.process_segment json_loads doc st) as [[u|e] st1].
  - apply IH.
  - destruct e; try reflexivity. apply IH.
Qed.

Lemma loop_of_batch st docs rs st2 :
  batch json_loads st docs rs st2 ->
  forall bad,
    trace_segments_loop json_loads docs bad st =
      (Ok (UnprocessedTraceSegments (bad ++ rs)), st2).
Proof.
  induction 1 as [st|st doc st1 docs rs st2 Hp Hb IH
                 |st doc i c m st1 docs rs st2 Hp Hb IH]; intros bad.
  - cbn. rewrite app_nil_r. reflexivity.
  - cbn [trace_segments_loop]. rewrite Hp. apply IH.
  - cbn [trace_segments_loop]. rewrite Hp. rewrite IH, <- app_assoc. reflexivity.
Qed.

Lemma items_stop st pre rs st1 v rest :
  batch json_loads st pre rs st1 ->
  (forall s, v <> JStr s) ->
  forall bad,
    trace_segments_items json_loads (map JStr pre ++ v :: rest) bad st =
      (Ok (ErrorResponse "InternalFailure" (StrOf TypeError) 500), st1).
Proof.
  intros Hb Hv.
  induction Hb as [st|st doc st1 docs rs st2 Hp Hb IH
                  |st doc i c m st1 docs rs st2 Hp Hb IH]; intros bad.
  - cbn [map app trace_segments_items].
    destruct v; try reflexivity. exfalso. apply (Hv s). reflexivity.
  - cbn [map app trace_segments_items process_item]. rewrite Hp. apply IH.
  - cbn [map app trace_segments_items process_item]. rewrite Hp. apply IH.
Qed.

(** X19.  [trace_segments] on a body whose [TraceSegmentDocuments] is a
    list of strings: when each document is processed or rejected, the
    answer lists the rejections, one for each rejected document and in
    their order, and the store is the one reached through all the
    documents. *)
Theorem trace_segments_lists_rejections :
  forall (body : string) (d : dict) (docs : list string)
         (st st2 : t) (rs : list rejection),
    json_loads body = Some (JObj d) ->
    dict_get "TraceSegmentDocuments" d = Some (JArr (map JStr docs)) ->
    batch json_loads st docs rs st2 ->
    Requests.trace_segments json_loads body st =
      (Returns (Segments (UnprocessedTraceSegments rs)), st2).
Proof.
  intros body d docs st st2 rs Hl Hd Hb.
  unfold Requests.trace_segments, _get_param, request_params, dict_get_default.
  rewrite Hl, Hd. cbn [iterate].
  rewrite items_of_strings, (loop_of_batch st docs rs st2 Hb []). reflexivity.
Qed.

(** X20.  An item of [TraceSegmentDocuments] that is no string stops
    [trace_segments]: the documents before it have been processed or
    rejected, the answer is [InternalFailure] with the status 500, and
    the items after it are not looked at. *)
Theorem trace_segments_stops_at_non_string :
  forall (body : string) (d : dict) (pre : list string) (v : json)
         (rest : list json) (st st1 : t) (rs : list rejection),
    json_loads body = Some (JObj d) ->
    dict_get "TraceSegmentDocuments" d = Some (JArr (map JStr pre ++ v :: rest)) ->
    (forall s, v <> JStr s) ->
    batch json_loads st pre rs st1 ->
    Requests.trace_segments json_loads body st =
      (Returns (Segments (ErrorResponse "InternalFailure" (StrOf TypeError) 500)),
       st1).
Proof.
  intros body d pre v rest st st1 rs Hl Hd Hv Hb.
  unfold Requests.trace_segments, _get_param, request_params, dict_get_default.
  rewrite Hl, Hd. cbn [iterate].
  rewrite (items_stop st pre rs st1 v rest Hb Hv []). reflexivity.
Qed.

Lemma summary_state start_time end_time filter_expression sampling now st :
  snd (summary start_time end_time filter_expression sampling now st) = st.
Proof.
  unfold summary. destruct (is_not_none filter_expression); reflexivity.
Qed.

(** X21.  [trace_summaries] never changes the store, whatever the body
    of the request and however the times convert. *)
Theorem trace_summaries_leaves_store :
  forall (body : string) (now : Z) (st : t),
    snd (Requests.trace_summaries json_loads to_datetime body now st) = st.
Proof.
  intros body now st. unfold Requests.trace_summaries.
  destruct (_get_param json_loads body "StartTime" JNull) as [vs|]; [|reflexivity].
  destruct (_get_param json_loads body "EndTime" JNull) as [ve|]; [|reflexivity].
  destruct (negb (is_not_none vs)); [reflexivity|].
  destruct (negb (is_not_none ve)); [reflexivity|].
  destruct (_get_param json_loads body "FilterExpression" JNull) as [f|]; [|reflexivity].
  destruct (_get_param json_loads body "Sampling" (JStr "false")) as [s|]; [|reflexivity].
  destruct (to_datetime vs) as [ds| |]; try reflexivity.
  destruct (to_datetime ve) as [de| |]; try reflexivity.
  unfold XRayBackend.get_trace_summary.
  pose proof (summary_state ds de f (eq_str s "true") now st) as Hs.
  destruct (summary ds de f (eq_str s "true") now st) as [[r|e] st'].
  - exact Hs.
  - simpl in Hs. destruct e; exact Hs.
Qed.


(** X23.  A query that passes the checks: for a body with [StartTime] and
    [EndTime] that convert and without a filter expression,
    [trace_summaries] answers with the result of [summary] for the
    converted bounds: the summaries of the finished traces strictly
    inside them, in the order of the store, whatever [Sampling] is. *)
Theorem trace_summaries_answers_with_summary :
  forall (body : string) (now : Z) (st : t) (d : dict) (s e : Z),
    json_loads body = Some (JObj d) ->
    dict_get_default "FilterExpression" JNull d = JNull ->
    dict_get_default "StartTime" JNull d <> JNull ->
    dict_get_default "EndTime" JNull d <> JNull ->
    to_datetime (dict_get_default "StartTime" JNull d) = Converted s ->
    to_datetime (dict_get_default "EndTime" JNull d) = Converted e ->
    exists res,
      Requests.trace_summaries json_loads to_datetime body now st
        = (Returns (Summaries res), st) /\
      TraceSummaries res =
        map part_of (filter (fun kt => in_window s e (snd kt)) st) /\
      TracesProcessedCount res = length (TraceSummaries res) /\
      ApproximateTime res = total_seconds_int now /\
      (Z.abs now < 2 ^ 34 * 1000000 ->
       ApproximateTime res = Z.quot now 1000000).
Proof.
  intros body now st d s e Hl Hf Hs He Hcs Hce.
  assert (Hp : forall p dflt,
             _get_param json_loads body p dflt = Returns (dict_get_default p dflt d)).
  { intros p dflt. unfold _get_param, request_params. rewrite Hl. reflexivity. }
  assert (Hnn : forall v, v <> JNull -> negb (is_not_none v) = false).
  { intros v Hv. destruct v; try reflexivity. contradiction. }
  unfold Requests.trace_summaries. rewrite !Hp.
  rewrite (Hnn _ Hs), (Hnn _ He), Hcs, Hce, Hf.
  unfold XRayBackend.get_trace_summary. rewrite Summary.summary_none.
  eexists. split; [reflexivity|]. cbn [TraceSummaries TracesProcessedCount ApproximateTime].
  rewrite Summary.summary_loop_filter. cbn [app].
  rewrite Z.sub_0_r.
  split; [reflexivity|]. split; [reflexivity|]. split; [reflexivity|].
  apply FloatFacts.total_seconds_int_exact.
Qed.


End Handlers.

Import MoreSamples.


(** The first and the third document are stored, the second is
    rejected. *)
Lemma sample_batch :
  exists st2,
    batch request_loads empty [doc1; "{"; doc3]
      [mk_rejection JNull "JSONFormatError" (Lit "Bad JSON data")] st2.
Proof.
  eexists.
  eapply batch_ok; [reflexivity|].
  eapply batch_bad; [reflexivity|].
  eapply batch_ok; [reflexivity|].
  apply batch_done.
Defined.

Lemma trace_segments_lists_rejections_witness :
  exists st2,
    Requests.trace_segments request_loads body_three empty =
      (Returns (Segments (UnprocessedTraceSegments
                  [mk_rejection JNull "JSONFormatError" (Lit "Bad JSON data")])),
       st2) /\
    lookup (KStr "t1") st2 <> None /\ lookup (KStr "t3") st2 <> None.
Proof.
  destruct sample_batch as [st2 Hb].
  exists (snd (Requests.trace_segments request_loads body_three empty)).
  split; [|split; vm_compute; discriminate].
  rewrite (trace_segments_lists_rejections request_loads body_three
             [("TraceSegmentDocuments", JArr [JStr doc1; JStr "{"; JStr doc3])]
             [doc1; "{"; doc3] empty st2 _ eq_refl eq_refl Hb).
  reflexivity.
Defined.

Lemma trace_segments_stops_at_non_string_witness :
  exists st1,
    Requests.trace_segments request_loads body_number empty =
      (Returns (Segments (ErrorResponse "InternalFailure" (StrOf TypeError) 500)),
       st1) /\
    lookup (KStr "t3") st1 = None.
Proof.
  exists (snd (XRayBackend.process_segment request_loads doc1 empty)).
  split; [|reflexivity].
  apply (trace_segments_stops_at_non_string request_loads body_number
           [("TraceSegmentDocuments", JArr [JStr doc1; JNum 5; JStr doc3])]
           [doc1] (JNum 5) [JStr doc3] empty _ [] eq_refl eq_refl).
  - intros s H. discriminate.
  - eapply batch_ok; [reflexivity | apply batch_done].
Defined.


Lemma trace_summaries_answers_with_summary_witness :
  let st := puts [segment_of (closed "a" "t" 100 200)] empty in
  exists res,
    Requests.trace_summaries request_loads sample_to_datetime body_query 0 st
      = (Returns (Summaries res), st) /\
    map Id (TraceSummaries res) = [KStr "t"].
Proof.
  intros st.
  destruct (trace_summaries_answers_with_summary request_loads sample_to_datetime
              body_query 0 st [("StartTime", JNum 50); ("EndTime", JNum 250)]
              50000000 250000000 eq_refl eq_refl
              ltac:(discriminate) ltac:(discriminate) eq_refl eq_refl)
    as (res & Hr & Hs & _).
  exists res. split; [exact Hr|]. rewrite Hs. reflexivity.
Defined.

End RequestFacts.

(** ** trace_version and request_start_date *)

Module TraceIdentifierFacts.
Import TraceIdentifier Samples MoreSamples.

Lemma split_no_dash s : has_dash s = false -> split s = [s].
Proof.
  induction s as [|c s IH]; simpl; [reflexivity|].
  destruct (Ascii.eqb c dash); [discriminate|]. simpl.
  intros H. rewrite (IH H). reflexivity.
Qed.

Lemma split_once_no_dash s : has_dash s = false -> split_once s = [s].
Proof.
  induction s as [|c s IH]; simpl; [reflexivity|].
  destruct (Ascii.eqb c dash); [discriminate|]. simpl.
  intros H. rewrite (IH H). reflexivity.
Qed.

Lemma split_at_dash a rest :
  has_dash a = false ->
  split (a ++ String dash rest) = a :: split rest.
Proof.
  induction a as [|c a IH]; simpl.
  - intros _. reflexivity.
  - destruct (Ascii.eqb c dash); [discriminate|]. simpl.
    intros H. rewrite (IH H). reflexivity.
Qed.

Lemma split_once_at_dash a rest :
  has_dash a = false ->
  split_once (a ++ String dash rest) = [a; rest].
Proof.
  induction a as [|c a IH]; simpl.
  - intros _. reflexivity.
  - destruct (Ascii.eqb c dash); [discriminate|]. simpl.
    intros H. rewrite (IH H). reflexivity.
Qed.

Lemma split_nonempty s : split s <> [].
Proof.
  destruct s as [|c s]; simpl; [discriminate|].
  destruct (Ascii.eqb c dash); [discriminate|].
  destruct (split s); discriminate.
Qed.

Lemma append_nil_r_local (s : string) : (s ++ EmptyString)%string = s.
Proof. induction s as [|c s IH]; simpl; [reflexivity | rewrite IH; reflexivity]. Qed.

Section Int.

Variable py_int : string -> option Z.
Variable py_int16 : string -> option Z.

(** X25.  [trace_version] converts the text of the trace id before its
    first dash, and [request_start_date] the text between the first and
    the second dash (or after the first, when there is no second), read
    as a hexadecimal number of seconds.  On a trace id without a dash
    [request_start_date] raises [IndexError], while [trace_version]
    converts the whole id. *)
Theorem trace_id_fields :
  forall (self : TraceSegment.t),
    (forall a b rest,
       TraceSegment.trace_id self = JStr (a ++ String dash (b ++ rest)) ->
       has_dash a = false -> has_dash b = false ->
       rest = EmptyString \/ (exists c, rest = String dash c) ->
       trace_version py_int self =
         match py_int a with
         | Some v => Returns v
         | None => Raises (Known ValueError)
         end /\
       request_start_date py_int16 self =
         match py_int16 b with
         | Some t =>
             match fromtimestamp (JNum (t # 1)) with
             | Ok d => Returns d
             | Raise e => Raises (Known e)
             end
         | None => Raises (Known ValueError)
         end) /\
    (forall s,
       TraceSegment.trace_id self = JStr s -> has_dash s = false ->
       request_start_date py_int16 self = Raises (Known IndexError) /\
       trace_version py_int self =
         match py_int s with
         | Some v => Returns v
         | None => Raises (Known ValueError)
         end).
Proof.
  intros self. split.
  - intros a b rest Hid Ha Hb Hrest.
    unfold trace_version, request_start_date. rewrite Hid.
    rewrite (split_once_at_dash a _ Ha), (split_at_dash a _ Ha).
    cbn [nth_error]. split; [reflexivity|].
    destruct Hrest as [->|[c ->]].
    + rewrite append_nil_r_local, (split_no_dash b Hb). reflexivity.
    + rewrite (split_at_dash b c Hb). reflexivity.
  - intros s Hid Hs. unfold trace_version, request_start_date. rewrite Hid.
    rewrite (split_no_dash s Hs), (split_once_no_dash s Hs). split; reflexivity.
Qed.

End Int.

Lemma trace_id_fields_witness :
  let seg := segment_of
               (closed "a" "1-58406520-a006649127e371903a2de979" 10 100) in
  trace_version sample_int seg = Returns 1 /\
  request_start_date sample_int16 seg = Returns 1480615200000000.
Proof.
  intros seg.
  apply (proj1 (trace_id_fields sample_int sample_int16 seg)
           "1" "58406520" "-a006649127e371903a2de979")%string;
    try reflexivity.
  right. exists "a006649127e371903a2de979"%string. reflexivity.
Defined.

End TraceIdentifierFacts.
